(** * Mercury packet-parsing core: a shallow embedding and its properties

    The development follows four translation units of the repository:
    - [libmerc/tofsee.hpp]  (module [Tofsee]): de-obfuscation and acceptance
      heuristic of the Tofsee initial message;
    - [libmerc/udp.cc]      (module [Udp]): the mask/value UDP classifier;
    - [http.h]              (module [Http]): the header-block scanner;
    - [libmerc/mysql.hpp]   (module [Mysql]): the server-greeting parser.

    Bytes and machine integers are [Z] with the wrap-around written out.
    A pointer is a position in the buffer it points into, or [None] for
    [NULL]. *)

From Stdlib Require Import ZArith List Bool Lia String Permutation Btauto.
Import ListNotations.
Open Scope Z_scope.

(** ** Machine integers *)

Definition to_u8 (x : Z) : Z := x mod 256.

Definition is_byte (x : Z) : Prop := 0 <= x < 256.

(** ** The cursor ([datum]) *)

Module Datum.

(** Modelled from the spec: [datum.h] is not among the sources.  A position
    into the borrowed buffer, or the null sentinel. *)
Definition ptr := option Z.

(** Modelled from the spec: "a pair (data, data_end) of positions into a
    byte buffer it does not own". *)
Record datum := mk_datum { data : ptr; data_end : ptr }.

(** Modelled from the spec: the default-constructed, null cursor. *)
Definition null : datum := mk_datum None None.

(** Modelled from the spec: the byte a position designates; reads are only
    meaningful inside the buffer. *)
Definition load (buf : list Z) (a : Z) : Z := nth (Z.to_nat a) buf 0.

(** Modelled from the spec: [*p]; never evaluated at the null sentinel by
    the code below once its guards hold. *)
Definition deref (buf : list Z) (p : ptr) : Z :=
  match p with Some a => load buf a | None => 0 end.

(** Modelled from the spec: [p + n] on positions. *)
Definition ptr_add (p : ptr) (n : Z) : ptr :=
  match p with Some a => Some (a + n) | None => None end.

(** Modelled from the spec: "length() = data_end - data (zero when null or
    exhausted)". *)
Definition length (d : datum) : Z :=
  match data d, data_end d with
  | Some a, Some b => b - a
  | _, _ => 0
  end.

(** Modelled from the spec: a cursor is null once its pointer is the null
    sentinel. *)
Definition is_not_null (d : datum) : bool :=
  match data d with Some _ => true | None => false end.

(** Modelled from the spec: [set_null()]: the cursor becomes the null
    datum, [datum{NULL, NULL}] in the sources. *)
Definition set_null (d : datum) : datum := null.

(** Modelled from the spec: the sub-view constructor [datum{r, n}] and
    [parse(r, n)]: "any operation whose requested length exceeds remaining
    length nulls the cursor"; otherwise the new datum views the next [n]
    bytes and [r] advances past them.  Returns the new datum and [r]. *)
Definition parse (r : datum) (num_bytes : Z) : datum * datum :=
  if length r <? num_bytes then (null, set_null r)
  else (mk_datum (data r) (ptr_add (data r) num_bytes),
        mk_datum (ptr_add (data r) num_bytes) (data_end r)).

(** Modelled from the spec: "skip(n) (advances data by n, clamped;
    advancing past data_end nulls the cursor rather than corrupting
    bounds)". *)
Definition skip (d : datum) (n : Z) : datum :=
  if length d <? n then set_null d
  else mk_datum (ptr_add (data d) n) (data_end d).

(** Modelled from the spec: the bytes a datum views, front to back (the
    range-for over a datum); none when it is null. *)
Definition bytes (buf : list Z) (d : datum) : list Z :=
  match data d, data_end d with
  | Some a, Some b =>
      map (fun i => load buf (a + Z.of_nat i)) (seq 0 (Z.to_nat (b - a)))
  | _, _ => []
  end.

End Datum.

Import Datum.

(** ** Tofsee initial message ([libmerc/tofsee.hpp]) *)

Module Tofsee.

(** [template <size_t bits, typename T> T rotl(T &x)], at [T = uint8_t]:
    the operands are promoted to [int], the result is converted back to
    [T]. *)
Definition rotl (bits : Z) (x : Z) : Z :=
  to_u8 (Z.lor (Z.shiftl x bits) (Z.shiftr x (1 * 8 - bits))).

(** The loop of [decrypt]: [ciphertext] is the read pointer into [mem],
    [n] the iterations left, [res] the running state byte. *)
Fixpoint decrypt_loop (mem : list Z) (ciphertext : ptr) (n : nat) (res : Z)
  : list Z :=
  match n with
  | O => []
  | S n' =>
      let c := deref mem ciphertext in
      to_u8 (Z.lxor res (rotl 5 c))
        :: decrypt_loop mem (ptr_add ciphertext 1) n' (to_u8 (Z.lxor c 0xc6))
  end.

(** [decrypt(ciphertext, plaintext, data_len)]; the plaintext written is
    the result. *)
Definition decrypt (mem : list Z) (ciphertext : ptr) (data_len : nat) : list Z :=
  decrypt_loop mem ciphertext data_len 198.

(** [class plaintext : public datum { uint8_t buffer[200]; ... }].  The
    positions of [pt] are positions in [buffer]; [buffer = None] is the
    array left unwritten. *)
Record plaintext := mk_plaintext { pt : datum; buffer : option (list Z) }.

Definition sizeof_buffer : Z := 200.

(** [plaintext(datum &d)]; returns the object and the caller's [d]. *)
Definition plaintext_ctor (mem : list Z) (d : datum) : plaintext * datum :=
  if negb (length d =? sizeof_buffer) then
    (mk_plaintext null None, set_null d)
  else
    (mk_plaintext (mk_datum (Some 0) (Some sizeof_buffer))
       (Some (decrypt mem (data d) (Z.to_nat sizeof_buffer))), d).

Record tofsee_initial_message := mk_tofsee {
  tim_pt : plaintext;
  key : datum;
  unknown_1 : datum;
  ipv4 : datum;
  srv_time : datum;
  unknown_2 : datum
}.

Definition weight_threshold : Z := 16.

(** [tofsee_initial_message(datum &ct)]: the member initialisers, in
    declaration order; every field is sliced from [pt].  Returns the record
    and the caller's [ct]. *)
Definition tofsee_ctor (mem : list Z) (ct : datum)
  : tofsee_initial_message * datum :=
  let '(p, ct') := plaintext_ctor mem ct in
  let '(key, pt1) := parse (pt p) 128 in
  let '(unknown_1, pt2) := parse pt1 16 in
  let '(ipv4, pt3) := parse pt2 4 in
  let '(srv_time, pt4) := parse pt3 4 in
  let '(unknown_2, pt5) := parse pt4 48 in
  (mk_tofsee (mk_plaintext pt5 (buffer p)) key unknown_1 ipv4 srv_time unknown_2,
   ct').

(** [__builtin_popcount] on the byte promoted to a 32-bit unsigned. *)
Definition popcount (x : Z) : Z :=
  fold_left (fun acc i => acc + Z.b2z (Z.testbit x (Z.of_nat i))) (seq 0 32) 0.

Definition plain_bytes (m : tofsee_initial_message) (d : datum) : list Z :=
  match buffer (tim_pt m) with
  | Some b => bytes b d
  | None => bytes [] d
  end.

Definition is_not_empty (m : tofsee_initial_message) : bool :=
  if negb (is_not_null (unknown_2 m)) then false
  else
    let weight :=
      fold_left (fun w x => w + popcount x) (plain_bytes m (unknown_1 m)) 0 in
    if weight <? weight_threshold then true else false.

(** *** Specification-side definitions *)

(** Left rotation by [k] within an 8-bit word, arithmetically. *)
Definition rotl8 (k : Z) (x : Z) : Z :=
  (x * 2 ^ k) mod 256 + x / 2 ^ (8 - k).

(** Hamming weight of a byte string. *)
Definition hamming_weight (l : list Z) : Z :=
  fold_right (fun x w => popcount x + w) 0 l.

(** The number of ones among the low [digits] binary digits of [x], by
    repeated halving. *)
Fixpoint ones (digits : nat) (x : Z) : Z :=
  match digits with
  | O => 0
  | S d => x mod 2 + ones d (x / 2)
  end.


(** The 16 decrypted bytes at offset 128 of the message the cursor [ct]
    views. *)
Definition unknown_1_plain (mem : list Z) (ct : datum) : list Z :=
  firstn 16 (skipn 128 (decrypt mem (data ct) 200)).

(** [tim_ciphertext] of [unit_test]: a message observed from a Tofsee
    sample. *)
Definition tim_ciphertext : list Z :=
  [0xff; 0xd4; 0x33; 0xb9; 0x69; 0x1a; 0x79; 0x7b;
   0xe1; 0x9b; 0x32; 0xa5; 0x26; 0xd0; 0x03; 0x23;
   0xa2; 0x0f; 0x26; 0xe5; 0x81; 0xb3; 0x0d; 0xe9;
   0xb6; 0xd4; 0x5b; 0xa6; 0xed; 0x4e; 0x8d; 0xe2;
   0x15; 0xf3; 0x67; 0xcb; 0xa4; 0x75; 0xd8; 0x28;
   0x76; 0x9b; 0x30; 0xf1; 0x54; 0x02; 0x6d; 0x2e;
   0xfd; 0x6a; 0x33; 0xfc; 0x94; 0x66; 0x06; 0x0b;
   0x2a; 0xa9; 0x2c; 0x64; 0xc8; 0x69; 0x96; 0x88;
   0xf4; 0x23; 0xe7; 0x5a; 0xfd; 0xd7; 0xa4; 0x09;
   0x5a; 0xe3; 0x71; 0xb7; 0x1e; 0x65; 0x98; 0xba;
   0xbc; 0x00; 0xad; 0xc7; 0xc0; 0xae; 0xe2; 0x2c;
   0x32; 0x57; 0xb4; 0xd0; 0xa2; 0x07; 0x43; 0xbc;
   0x0d; 0x40; 0xd7; 0x7f; 0xe9; 0x71; 0xb7; 0xc3;
   0x3f; 0xa5; 0x49; 0xd8; 0xfe; 0x16; 0x72; 0xc0;
   0x9b; 0x62; 0xdc; 0xa4; 0x3c; 0x4c; 0x2d; 0xd3;
   0x3c; 0x6e; 0x8a; 0xc4; 0xcd; 0x45; 0x2b; 0xdb;
   0xe0; 0x31; 0xbf; 0xcb; 0x60; 0x35; 0x9f; 0xca;
   0x60; 0x34; 0x8f; 0x4a; 0x7c; 0xd5; 0x98; 0xf2;
   0x8b; 0xd3; 0x80; 0xfd; 0xfb; 0xb2; 0xab; 0xdd;
   0xcd; 0x8f; 0x1f; 0x24; 0xfb; 0x6d; 0xfa; 0xf9;
   0x66; 0x41; 0x4b; 0xae; 0xb1; 0xb4; 0x67; 0x01;
   0xc6; 0xcb; 0x5b; 0x2e; 0xd0; 0x0f; 0x66; 0xee;
   0x7f; 0xc7; 0x6f; 0x15; 0xfb; 0x86; 0x0d; 0x2c;
   0x10; 0xea; 0x3c; 0xfb; 0x09; 0x82; 0x6e; 0x3d;
   0x9e; 0x79; 0xc6; 0x34; 0x55; 0xac; 0x13; 0x6d].

(** The constructor run on a whole buffer. *)
Definition tofsee_of (ct : list Z) : tofsee_initial_message * datum :=
  tofsee_ctor ct (mk_datum (Some 0) (Some (Z.of_nat (List.length ct)))).

End Tofsee.

(** ** UDP message classification ([libmerc/udp.cc]) *)

Module Udp.

(** Modelled from the spec: [proto_identify.h] is not among the sources;
    the enumerators are the tags [udp_get_message_type] returns. *)
Inductive udp_msg_type :=
| udp_msg_type_unknown
| udp_msg_type_dns
| udp_msg_type_dhcp
| udp_msg_type_dtls_client_hello
| udp_msg_type_dtls_server_hello
| udp_msg_type_wireguard
| udp_msg_type_quic.

Definition udp_msg_type_eqb (a b : udp_msg_type) : bool :=
  match a, b with
  | udp_msg_type_unknown, udp_msg_type_unknown
  | udp_msg_type_dns, udp_msg_type_dns
  | udp_msg_type_dhcp, udp_msg_type_dhcp
  | udp_msg_type_dtls_client_hello, udp_msg_type_dtls_client_hello
  | udp_msg_type_dtls_server_hello, udp_msg_type_dtls_server_hello
  | udp_msg_type_wireguard, udp_msg_type_wireguard
  | udp_msg_type_quic, udp_msg_type_quic => true
  | _, _ => false
  end.

(** *** The mask and value arrays *)

Definition dtls_client_hello_mask : list Z :=
  [0xff; 0xff; 0xf0; 0x00; 0x00; 0x00; 0x00; 0x00;
   0x00; 0x00; 0x00; 0x00; 0x00; 0xff; 0x00; 0x00].

Definition dtls_client_hello_value : list Z :=
  [0x16; 0xfe; 0xf0; 0x00; 0x00; 0x00; 0x00; 0x00;
   0x00; 0x00; 0x00; 0x00; 0x00; 0x01; 0x00; 0x00].

Definition dtls_server_hello_mask : list Z :=
  [0xff; 0xff; 0xf0; 0x00; 0x00; 0x00; 0x00; 0x00;
   0x00; 0x00; 0x00; 0x00; 0x00; 0xff; 0x00; 0x00].

Definition dtls_server_hello_value : list Z :=
  [0x16; 0xfe; 0xf0; 0x00; 0x00; 0x00; 0x00; 0x00;
   0x00; 0x00; 0x00; 0x00; 0x00; 0x02; 0x00; 0x00].

Definition dhcp_client_value : list Z :=
  [0x01; 0x01; 0x06; 0x00; 0x00; 0x00; 0x00; 0x00].

Definition dhcp_client_mask : list Z :=
  [0xff; 0xff; 0xff; 0xff; 0x00; 0x00; 0x00; 0x00].

Definition dns_server_mask : list Z :=
  [0x00; 0x00; 0xff; 0xff; 0xff; 0x00; 0xff; 0x00].

Definition dns_server_value : list Z :=
  [0x00; 0x00; 0x81; 0x80; 0x00; 0x00; 0x00; 0x00].

Definition dns_client_mask : list Z :=
  [0x00; 0x00; 0xff; 0xff; 0xff; 0x00; 0xff; 0x00].

Definition dns_client_value : list Z :=
  [0x00; 0x00; 0x01; 0x00; 0x00; 0x00; 0x00; 0x00].

Definition wireguard_mask : list Z :=
  [0xff; 0xff; 0xff; 0xff; 0x00; 0x00; 0x00; 0x00].

Definition wireguard_value : list Z :=
  [0x01; 0x00; 0x00; 0x00; 0x00; 0x00; 0x00; 0x00].

Definition quic_mask : list Z :=
  [0xf0; 0x00; 0xff; 0xff; 0x00; 0x00; 0x00; 0x00].

Definition quic_value : list Z :=
  [0xc0; 0x00; 0x00; 0x00; 0x00; 0x00; 0x00; 0x00].

(** *** Reads of the datagram, logged

    A computation returns its value together with the offsets (from
    [udp_data]) of the payload bytes it has read, in order. *)

Definition R (A : Type) : Type := (list Z * A)%type.

Definition ret {A} (x : A) : R A := ([], x).

Definition bind {A B} (m : R A) (f : A -> R B) : R B :=
  let '(l1, a) := m in
  let '(l2, b) := f a in
  (l1 ++ l2, b).

Notation "x <- m ;; k" := (bind m (fun x => k))
  (at level 61, m at next level, right associativity).

Definition reads {A} (m : R A) : list Z := fst m.
Definition result {A} (m : R A) : A := snd m.

(** The value of a machine word loaded from these bytes (first byte least
    significant). *)
Fixpoint word_of_bytes (bs : list Z) : Z :=
  match bs with
  | [] => 0
  | b :: bs' => Z.lor b (Z.shiftl (word_of_bytes bs') 8)
  end.

Definition offsets (k : Z) (width : nat) : list Z :=
  map (fun i => k * Z.of_nat width + Z.of_nat i) (seq 0 width).

(** [a[k]] for a constant array [a] of [width]-byte words. *)
Definition word_at (a : list Z) (width : nat) (k : Z) : Z :=
  word_of_bytes (map (load a) (offsets k width)).

(** [d[k]] for the payload pointer [d]: the same, with the bytes read
    logged. *)
Definition read_word (udp_data : list Z) (width : nat) (k : Z) : R Z :=
  (offsets k width, word_at udp_data width k).

(** Modelled from the spec: [match.h] is not among the sources.  A
    candidate matches iff "for every index i in [0,L),
    (candidate[i] & mask[i]) == value[i]", and the test runs "with no
    branching on mask value beyond the bitwise AND/compare"; the comparison
    takes no length and is made on two machine words of [width] bytes
    (L = 2 * width), both of them read. *)
Definition compare_masked_data_to_value (width : nat)
    (data_in mask_in value_in : list Z) : R bool :=
  d0 <- read_word data_in width 0 ;;
  d1 <- read_word data_in width 1 ;;
  ret ((Z.land d0 (word_at mask_in width 0) =? word_at value_in width 0)
       && (Z.land d1 (word_at mask_in width 1) =? word_at value_in width 1)).

(** Modelled from the spec: the 8-byte comparison (two [uint32_t]). *)
Definition u32_compare_masked_data_to_value := compare_masked_data_to_value 4.

(** Modelled from the spec: the 16-byte comparison (two [uint64_t]). *)
Definition u64_compare_masked_data_to_value := compare_masked_data_to_value 8.

Definition sizeof (a : list Z) : Z := Z.of_nat (List.length a).

(** [udp_get_message_type(udp_data, len)]; [udp_data] is the memory from
    the payload pointer on. *)
Definition udp_get_message_type (udp_data : list Z) (len : Z) : R udp_msg_type :=
  if len <? sizeof dhcp_client_mask then ret udp_msg_type_unknown else
  b <- u32_compare_masked_data_to_value udp_data dhcp_client_mask dhcp_client_value ;;
  if b then ret udp_msg_type_dhcp else
  b <- u64_compare_masked_data_to_value udp_data
         dtls_client_hello_mask dtls_client_hello_value ;;
  if b then ret udp_msg_type_dtls_client_hello else
  b <- u64_compare_masked_data_to_value udp_data
         dtls_server_hello_mask dtls_server_hello_value ;;
  if b then ret udp_msg_type_dtls_server_hello else
  b <- u32_compare_masked_data_to_value udp_data dns_server_mask dns_server_value ;;
  if b then ret udp_msg_type_dns else
  b <- u32_compare_masked_data_to_value udp_data dns_client_mask dns_client_value ;;
  if b then ret udp_msg_type_dns else
  b <- u32_compare_masked_data_to_value udp_data wireguard_mask wireguard_value ;;
  if b then ret udp_msg_type_wireguard else
  b <- u32_compare_masked_data_to_value udp_data quic_mask quic_value ;;
  if b then ret udp_msg_type_quic else
  ret udp_msg_type_unknown.

(** *** Specification-side definitions *)

(** A classification rule: comparison width, mask, value and tag. *)
Record rule := mk_rule {
  rule_width : nat;
  rule_mask : list Z;
  rule_value : list Z;
  rule_tag : udp_msg_type
}.

Definition dhcp_rule : rule :=
  mk_rule 4 dhcp_client_mask dhcp_client_value udp_msg_type_dhcp.

Definition quic_rule : rule :=
  mk_rule 4 quic_mask quic_value udp_msg_type_quic.

(** The priority order of the spec. *)
Definition udp_rules : list rule :=
  [ dhcp_rule;
    mk_rule 8 dtls_client_hello_mask dtls_client_hello_value
      udp_msg_type_dtls_client_hello;
    mk_rule 8 dtls_server_hello_mask dtls_server_hello_value
      udp_msg_type_dtls_server_hello;
    mk_rule 4 dns_server_mask dns_server_value udp_msg_type_dns;
    mk_rule 4 dns_client_mask dns_client_value udp_msg_type_dns;
    mk_rule 4 wireguard_mask wireguard_value udp_msg_type_wireguard;
    quic_rule ].

Definition rule_matches (udp_data : list Z) (r : rule) : bool :=
  result (compare_masked_data_to_value (rule_width r) udp_data
            (rule_mask r) (rule_value r)).

(** The tag of the first rule of [rs] that matches, [unknown] if none. *)
Definition first_match (rs : list rule) (udp_data : list Z) : udp_msg_type :=
  match find (rule_matches udp_data) rs with
  | Some r => rule_tag r
  | None => udp_msg_type_unknown
  end.

(** Every byte read lies inside [udp_data, udp_data + len). *)
Definition reads_in_bounds (udp_data : list Z) (len : Z) : Prop :=
  Forall (fun off => 0 <= off < len) (reads (udp_get_message_type udp_data len)).

End Udp.

(** ** HTTP header block ([http.h]) *)

Module Http.

(** Modelled from the spec: [extractor.h] is not among the sources; the
    two outcomes the parser helpers report. *)
Inductive status := status_ok | status_err.

Definition is_ok (s : status) : bool :=
  match s with status_ok => true | status_err => false end.

(** [unsigned char crlf[2] = { '\r', '\n' }]. *)
Definition crlf : list Z := [13; 10].

(** Modelled from the spec: the remaining length of the cursor,
    "length() = data_end - data". *)
Definition parser_get_data_length (p : datum) : Z := length p.

(** [struct http_headers : public datum { bool complete; ... }]. *)
Record http_headers := mk_http_headers { base : datum; complete : bool }.

(** [http_headers() : datum{}, complete{false} {}]. *)
Definition http_headers_ctor : http_headers := mk_http_headers null false.

(** *** [http_headers::parse]

    [parser_match] and [parser_skip_upto_delim] are declared in
    [extractor.h], which is not among the sources: [parse] is given over
    any pair of them.  A helper is called on the buffer and the cursor,
    with a byte string and its length, and returns its status and the
    cursor as it leaves it. *)
Definition helper : Type := list Z -> datum -> list Z -> Z -> status * datum.

Section Parse.
Variables parser_match parser_skip_upto_delim : helper.

(** The [while] loop of [http_headers::parse]: the state is the cursor [p]
    and the flag [complete]; [None] when [fuel] iterations did not reach
    the exit. *)
Fixpoint parse_loop (fuel : nat) (buf : list Z) (p : datum) (complete : bool)
  : option (datum * bool) :=
  match fuel with
  | O => None
  | S fuel' =>
      if parser_get_data_length p >? 0 then
        let '(st, p1) := parser_match buf p crlf 2 in
        if is_ok st then Some (p1, true)
        else
          let '(st', p2) := parser_skip_upto_delim buf p1 crlf 2 in
          if negb (is_ok st') then Some (p2, complete)
          else parse_loop fuel' buf p2 complete
      else Some (p, complete)
  end.

(** [void parse(struct datum &p)]; returns the headers object and [p]. *)
Definition parse (fuel : nat) (buf : list Z) (h : http_headers) (p : datum)
  : option (http_headers * datum) :=
  let data0 := data p in
  match parse_loop fuel buf p (complete h) with
  | Some (p', c) => Some (mk_http_headers (mk_datum data0 (data p')) c, p')
  | None => None
  end.

End Parse.

(** *** The helpers as the spec describes the cursor *)

(** Modelled from the spec: [bs] begins with the bytes of [value]; a
    candidate shorter than [value] does not match. *)
Fixpoint starts_with (value bs : list Z) : bool :=
  match value, bs with
  | [], _ => true
  | _ :: _, [] => false
  | v :: value', b :: bs' => (b =? v) && starts_with value' bs'
  end.

(** Modelled from the spec: offset of "the first occurrence of a given
    multi-byte delimiter string within the remaining bytes". *)
Fixpoint find_first (delim bs : list Z) : option Z :=
  match bs with
  | [] => None
  | _ :: bs' =>
      if starts_with delim bs then Some 0
      else option_map Z.succ (find_first delim bs')
  end.

(** Modelled from the spec: [parser_match] of [extractor.h], with its mask
    argument [NULL]: "a 'match' operation performs a Pattern-matcher
    comparison against the current front of the cursor without consuming".
    The cursor is returned as it was, whatever the outcome. *)
Definition parser_match : helper := fun buf p value value_len =>
  if length p <? value_len then (status_err, p)
  else if starts_with value (bytes buf p) then (status_ok, p)
  else (status_err, p).

(** Modelled from the spec: [parser_skip_upto_delim] of [extractor.h]: "a
    'skip upto delimiter' operation scans forward for the first occurrence
    of a given multi-byte delimiter string within the remaining bytes,
    advances past the byte immediately before it (exclusive) or nulls the
    cursor if the delimiter is absent before exhaustion".  The cursor is
    left on the first byte of the delimiter; [status_err] reports the
    absent delimiter. *)
Definition parser_skip_upto_delim : helper := fun buf p delim length =>
  match find_first delim (bytes buf p) with
  | Some i => (status_ok, skip p i)
  | None => (status_err, set_null p)
  end.

(** *** Specification-side definitions *)

(** An empty line, that is a CRLF at the start of a line, occurs in [bs];
    [sol] tells whether the scan is at the start of a line. *)
Fixpoint has_blank_line (sol : bool) (bs : list Z) : bool :=
  match bs with
  | [] => false
  | x :: tl =>
      match tl with
      | [] => false
      | y :: rest =>
          if (x =? 13) && (y =? 10) then
            if sol then true else has_blank_line true rest
          else has_blank_line false tl
      end
  end.

(** The header line "Host: x" CRLF, with no empty line after it. *)
Definition host_line : list Z := [72; 111; 115; 116; 58; 32; 120; 13; 10].

(** The same line cut before its CRLF. *)
Definition cut_line : list Z := [72; 111; 115; 116; 58; 32; 120].

End Http.

(** ** MySQL server greeting ([libmerc/mysql.hpp]) *)

Module Mysql.

(** *** Constant tables ([namespace mysql_consts]) *)

Definition options : list string :=
  [ "LONG_PASSWORD"; "FOUND_ROWS"; "LONG_FLAG"; "CONNECT_WITH_DB";
    "NO_SCHEMA"; "COMPRESS"; "ODBC"; "LOCAL_FILES"; "IGNORE_SPACE";
    "PROTOCOL_41"; "INTERACTIVE"; "SSL"; "IGNORE_SIGPIPE"; "TRANSACTIONS";
    "RESERVED"; "SECURE_CONNECTION" ]%string.

Definition extended_options : list string :=
  [ "MULTI_STATEMENTS"; "MULTI_RESULTS"; "PS_MULTI_RESULTS"; "PLUGIN_AUTH";
    "CONNECT_ATTRS"; "PLUGIN_AUTH_LENENC_CLIENT_DATA";
    "CAN_HANDLE_EXPIRED_PASSWORD"; "SESSION_TRACK"; "DEPRECATE_EOF";
    "OPTIONAL_RESULTSET_METADATA"; "ZSTD_COMPRESSION_ALGORITHM";
    "QUERY_ATTRIBUTES"; "MULTI_FACTOR_AUTHENTICATION";
    "CAPABILITY_EXTENSION"; "SSL_VERIFY_SERVER_CERT";
    "REMEMBER_OPTIONS" ]%string.

Definition mysql_collations : list string :=
  [ "big5_chinese_ci"; "latin2_czech_cs"; "dec8_swedish_ci";
    "cp850_general_ci"; "latin1_german1_ci"; "hp8_english_ci";
    "koi8r_general_ci"; "latin1_swedish_ci"; "latin2_general_ci";
    "swe7_swedish_ci"; "ascii_general_ci"; "ujis_japanese_ci";
    "sjis_japanese_ci"; "cp1251_bulgarian_ci"; "latin1_danish_ci";
    "hebrew_general_ci"; "tis620_thai_ci"; "euckr_korean_ci";
    "latin7_estonian_cs"; "latin2_hungarian_ci"; "koi8u_general_ci";
    "cp1251_ukrainian_ci"; "gb2312_chinese_ci"; "greek_general_ci";
    "cp1250_general_ci"; "latin2_croatian_ci"; "gbk_chinese_ci";
    "cp1257_lithuanian_ci"; "latin5_turkish_ci"; "latin1_german2_ci";
    "armscii8_general_ci"; "utf8_general_ci"; "cp1250_czech_cs";
    "ucs2_general_ci"; "cp866_general_ci"; "keybcs2_general_ci";
    "macce_general_ci"; "macroman_general_ci"; "cp852_general_ci";
    "latin7_general_ci"; "latin7_general_cs"; "macce_bin";
    "cp1250_croatian_ci"; "utf8mb4_general_ci"; "utf8mb4_bin"; "latin1_bin";
    "latin1_general_ci"; "latin1_general_cs"; "cp1251_bin";
    "cp1251_general_ci"; "cp1251_general_cs"; "macroman_bin";
    "utf16_general_ci"; "utf16_bin"; "utf16le_general_ci";
    "cp1256_general_ci"; "cp1257_bin"; "cp1257_general_ci";
    "utf32_general_ci"; "utf32_bin"; "utf16le_bin"; "binary";
    "armscii8_bin"; "ascii_bin"; "cp1250_bin"; "cp1256_bin"; "cp866_bin";
    "dec8_bin"; "greek_bin"; "hebrew_bin"; "hp8_bin"; "keybcs2_bin";
    "koi8r_bin"; "koi8u_bin"; "utf8_tolower_ci"; "latin2_bin"; "latin5_bin";
    "latin7_bin"; "cp850_bin"; "cp852_bin"; "swe7_bin"; "utf8_bin";
    "big5_bin"; "euckr_bin"; "gb2312_bin"; "gbk_bin"; "sjis_bin";
    "tis620_bin"; "ucs2_bin"; "ujis_bin"; "geostd8_general_ci";
    "geostd8_bin"; "latin1_spanish_ci"; "cp932_japanese_ci"; "cp932_bin";
    "eucjpms_japanese_ci"; "eucjpms_bin"; "cp1250_polish_ci";
    "utf16_unicode_ci"; "utf16_icelandic_ci"; "utf16_latvian_ci";
    "utf16_romanian_ci"; "utf16_slovenian_ci"; "utf16_polish_ci";
    "utf16_estonian_ci"; "utf16_spanish_ci"; "utf16_swedish_ci";
    "utf16_turkish_ci"; "utf16_czech_ci"; "utf16_danish_ci";
    "utf16_lithuanian_ci"; "utf16_slovak_ci"; "utf16_spanish2_ci";
    "utf16_roman_ci"; "utf16_persian_ci"; "utf16_esperanto_ci";
    "utf16_hungarian_ci"; "utf16_sinhala_ci"; "utf16_german2_ci";
    "utf16_croatian_ci"; "utf16_unicode_520_ci"; "utf16_vietnamese_ci";
    "ucs2_unicode_ci"; "ucs2_icelandic_ci"; "ucs2_latvian_ci";
    "ucs2_romanian_ci"; "ucs2_slovenian_ci"; "ucs2_polish_ci";
    "ucs2_estonian_ci"; "ucs2_spanish_ci"; "ucs2_swedish_ci";
    "ucs2_turkish_ci"; "ucs2_czech_ci"; "ucs2_danish_ci";
    "ucs2_lithuanian_ci"; "ucs2_slovak_ci"; "ucs2_spanish2_ci";
    "ucs2_roman_ci"; "ucs2_persian_ci"; "ucs2_esperanto_ci";
    "ucs2_hungarian_ci"; "ucs2_sinhala_ci"; "ucs2_german2_ci";
    "ucs2_croatian_ci"; "ucs2_unicode_520_ci"; "ucs2_vietnamese_ci";
    "ucs2_general_mysql500_ci"; "utf32_unicode_ci"; "utf32_icelandic_ci";
    "utf32_latvian_ci"; "utf32_romanian_ci"; "utf32_slovenian_ci";
    "utf32_polish_ci"; "utf32_estonian_ci"; "utf32_spanish_ci";
    "utf32_swedish_ci"; "utf32_turkish_ci"; "utf32_czech_ci";
    "utf32_danish_ci"; "utf32_lithuanian_ci"; "utf32_slovak_ci";
    "utf32_spanish2_ci"; "utf32_roman_ci"; "utf32_persian_ci";
    "utf32_esperanto_ci"; "utf32_hungarian_ci"; "utf32_sinhala_ci";
    "utf32_german2_ci"; "utf32_croatian_ci"; "utf32_unicode_520_ci";
    "utf32_vietnamese_ci"; "utf8_unicode_ci"; "utf8_icelandic_ci";
    "utf8_latvian_ci"; "utf8_romanian_ci"; "utf8_slovenian_ci";
    "utf8_polish_ci"; "utf8_estonian_ci"; "utf8_spanish_ci";
    "utf8_swedish_ci"; "utf8_turkish_ci"; "utf8_czech_ci"; "utf8_danish_ci";
    "utf8_lithuanian_ci"; "utf8_slovak_ci"; "utf8_spanish2_ci";
    "utf8_roman_ci"; "utf8_persian_ci"; "utf8_esperanto_ci";
    "utf8_hungarian_ci"; "utf8_sinhala_ci"; "utf8_german2_ci";
    "utf8_croatian_ci"; "utf8_unicode_520_ci"; "utf8_vietnamese_ci";
    "utf8_general_mysql500_ci"; "utf8mb4_unicode_ci";
    "utf8mb4_icelandic_ci"; "utf8mb4_latvian_ci"; "utf8mb4_romanian_ci";
    "utf8mb4_slovenian_ci"; "utf8mb4_polish_ci"; "utf8mb4_estonian_ci";
    "utf8mb4_spanish_ci"; "utf8mb4_swedish_ci"; "utf8mb4_turkish_ci";
    "utf8mb4_czech_ci"; "utf8mb4_danish_ci"; "utf8mb4_lithuanian_ci";
    "utf8mb4_slovak_ci"; "utf8mb4_spanish2_ci"; "utf8mb4_roman_ci";
    "utf8mb4_persian_ci"; "utf8mb4_esperanto_ci"; "utf8mb4_hungarian_ci";
    "utf8mb4_sinhala_ci"; "utf8mb4_german2_ci"; "utf8mb4_croatian_ci";
    "utf8mb4_unicode_520_ci"; "utf8mb4_vietnamese_ci"; "gb18030_chinese_ci";
    "gb18030_bin"; "gb18030_unicode_520_ci"; "utf8mb4_0900_ai_ci";
    "utf8mb4_de_pb_0900_ai_ci"; "utf8mb4_is_0900_ai_ci";
    "utf8mb4_lv_0900_ai_ci"; "utf8mb4_ro_0900_ai_ci";
    "utf8mb4_sl_0900_ai_ci"; "utf8mb4_pl_0900_ai_ci";
    "utf8mb4_et_0900_ai_ci"; "utf8mb4_es_0900_ai_ci";
    "utf8mb4_sv_0900_ai_ci"; "utf8mb4_tr_0900_ai_ci";
    "utf8mb4_cs_0900_ai_ci"; "utf8mb4_da_0900_ai_ci";
    "utf8mb4_lt_0900_ai_ci"; "utf8mb4_sk_0900_ai_ci";
    "utf8mb4_es_trad_0900_ai_ci"; "utf8mb4_la_0900_ai_ci";
    "utf8mb4_eo_0900_ai_ci"; "utf8mb4_hu_0900_ai_ci";
    "utf8mb4_hr_0900_ai_ci"; "utf8mb4_vi_0900_ai_ci"; "utf8mb4_0900_as_cs";
    "utf8mb4_de_pb_0900_as_cs"; "utf8mb4_is_0900_as_cs";
    "utf8mb4_lv_0900_as_cs"; "utf8mb4_ro_0900_as_cs";
    "utf8mb4_sl_0900_as_cs"; "utf8mb4_pl_0900_as_cs";
    "utf8mb4_et_0900_as_cs"; "utf8mb4_es_0900_as_cs";
    "utf8mb4_sv_0900_as_cs"; "utf8mb4_tr_0900_as_cs";
    "utf8mb4_cs_0900_as_cs"; "utf8mb4_da_0900_as_cs";
    "utf8mb4_lt_0900_as_cs"; "utf8mb4_sk_0900_as_cs";
    "utf8mb4_es_trad_0900_as_cs"; "utf8mb4_la_0900_as_cs";
    "utf8mb4_eo_0900_as_cs"; "utf8mb4_hu_0900_as_cs";
    "utf8mb4_hr_0900_as_cs"; "utf8mb4_vi_0900_as_cs";
    "utf8mb4_ja_0900_as_cs"; "utf8mb4_ja_0900_as_cs_ks";
    "utf8mb4_0900_as_ci"; "utf8mb4_ru_0900_ai_ci"; "utf8mb4_ru_0900_as_cs";
    "utf8mb4_zh_0900_as_cs"; "utf8mb4_0900_bin" ]%string.

Definition server_status_str : list string :=
  [ "STATUS_IN_TRANS"; "STATUS_AUTOCOMMIT"; "MORE_RESULTS_EXISTS";
    "QUERY_NO_GOOD_INDEX_USED"; "QUERY_NO_INDEX_USED";
    "STATUS_CURSOR_EXISTS"; "STATUS_LAST_ROW_SENT"; "STATUS_DB_DROPPED";
    "STATUS_NO_BACKSLASH_ESCAPES"; "STATUS_METADATA_CHANGED";
    "QUERY_WAS_SLOW"; "PS_OUT_PARAMS"; "STATUS_IN_TRANS_READONLY";
    "SESSION_STATE_CHANGED"; "RESERVED" ]%string.

(** *** Parsing against the cursor

    A parsing step reads the caller's cursor [pkt] and leaves it updated;
    the packet buffer is fixed. *)

Definition P (A : Type) : Type := datum -> A * datum.

Definition ret {A} (x : A) : P A := fun pkt => (x, pkt).

Definition bind {A B} (m : P A) (f : A -> P B) : P B :=
  fun pkt => let '(a, pkt') := m pkt in f a pkt'.

Notation "x <- m ;; k" := (bind m (fun x => k))
  (at level 61, m at next level, right associativity).

(** Value of a byte string read most significant byte first. *)
Definition be_value (bs : list Z) : Z :=
  fold_left (fun acc b => acc * 256 + b) bs 0.

(** Modelled from the spec: [encoded<T>{pkt, little_endian}], the class
    being declared in [datum.h]: "construction consumes exactly width
    bytes from a cursor (nulls cursor on insufficient data), decodes
    according to endianness", "big-endian (network order, default) and
    little-endian (explicit flag)".  The value on underflow is taken to be
    0. *)
Definition encoded (buf : list Z) (width : Z) (little_endian : bool) : P Z :=
  fun pkt =>
    if length pkt <? width then (0, set_null pkt)
    else
      let '(field, pkt') := parse pkt width in
      let bs := bytes buf field in
      (be_value (if little_endian then rev bs else bs), pkt').

(** Modelled from the spec: "delimiter search that scans for a byte within
    the remaining range and reports its offset or not found" (a negative
    result). *)
Definition find_delim (buf : list Z) (d : datum) (delim : Z) : Z :=
  (fix scan (bs : list Z) (off : Z) : Z :=
     match bs with
     | [] => -1
     | b :: bs' => if b =? delim then off else scan bs' (off + 1)
     end) (bytes buf d) 0.

Definition parse_n (n : Z) : P datum := fun pkt => parse pkt n.

Definition skip_n (n : Z) : P unit := fun pkt => (tt, skip pkt n).

Definition pkt_length : P Z := fun pkt => (length pkt, pkt).

(** *** [class mysql_server_greet]

    The four flags have no initialiser: [None] is a flag never assigned. *)
Record mysql_server_greet := mk_greet {
  len : Z;
  pkt_num : Z;
  proto : Z;
  version : datum;
  thread_id : Z;
  salt_1 : datum;
  cap : Z;
  collation : Z;
  srv_status : Z;
  ext_cap : Z;
  auth_plugin_len : Z;
  if_auth_plugin : option bool;
  is_ver_less_41 : option bool;
  is_mariadb : option bool;
  partial_salt : option bool;
  salt_2 : datum;
  valid : bool;
  mariadb_ext_cap : Z;
  auth_plugin : datum
}.

(** The initialiser of [version]: the lambda that cuts the NUL-terminated
    string off the cursor. *)
Definition read_version (buf : list Z) : P datum :=
  fun pkt =>
    let off := find_delim buf pkt 0x00 in
    if off <? 0 then (mk_datum None None, pkt)
    else
      let begin_ := data pkt in
      let end_ := ptr_add (data pkt) (off + 1) in
      (mk_datum begin_ end_, skip pkt (off + 1)).

(** The member initialisers up to and including [version]. *)
Definition init_upto_version (buf : list Z) : P (Z * Z * Z * datum) :=
  b0 <- encoded buf 1 false ;;
  b1 <- encoded buf 1 false ;;
  b2 <- encoded buf 1 false ;;
  pkt_num <- encoded buf 1 false ;;
  proto <- encoded buf 1 false ;;
  version <- read_version buf ;;
  ret (b0 + Z.shiftl b1 8 + Z.shiftl b2 16, pkt_num, proto, version).

(** All member initialisers, in declaration order: they run before the
    constructor body. *)
Definition member_init (buf : list Z) : P mysql_server_greet :=
  hd <- init_upto_version buf ;;
  let '(len, pkt_num, proto, version) := hd in
  thread_id <- encoded buf 4 true ;;
  salt_1 <- parse_n 9 ;;
  cap <- encoded buf 2 true ;;
  collation <- encoded buf 1 false ;;
  srv_status <- encoded buf 2 true ;;
  ext_cap <- encoded buf 2 true ;;
  auth_plugin_len <- encoded buf 1 false ;;
  ret (mk_greet len pkt_num proto version thread_id salt_1 cap collation
         srv_status ext_cap auth_plugin_len None None None None
         null true 0 null).

Definition set_valid (g : mysql_server_greet) (v : bool) : mysql_server_greet :=
  mk_greet (len g) (pkt_num g) (proto g) (version g) (thread_id g) (salt_1 g)
    (cap g) (collation g) (srv_status g) (ext_cap g) (auth_plugin_len g)
    (if_auth_plugin g) (is_ver_less_41 g) (is_mariadb g) (partial_salt g)
    (salt_2 g) v (mariadb_ext_cap g) (auth_plugin g).

(** The flags assigned by the body before the second validity check. *)
Definition set_versions (g : mysql_server_greet) (iap lt41 : bool)
  : mysql_server_greet :=
  mk_greet (len g) (pkt_num g) (proto g) (version g) (thread_id g) (salt_1 g)
    (cap g) (collation g) (srv_status g) (ext_cap g) (auth_plugin_len g)
    (Some iap) (Some lt41) (is_mariadb g) (partial_salt g)
    (salt_2 g) (valid g) (mariadb_ext_cap g) (auth_plugin g).

Definition set_tail (g : mysql_server_greet) (ps mdb : bool) (mext : Z)
    (salt_2 : datum) (v : bool) (auth_plugin : datum) : mysql_server_greet :=
  mk_greet (len g) (pkt_num g) (proto g) (version g) (thread_id g) (salt_1 g)
    (cap g) (collation g) (srv_status g) (ext_cap g) (auth_plugin_len g)
    (if_auth_plugin g) (is_ver_less_41 g) (Some mdb) (Some ps)
    salt_2 v mext auth_plugin.

(** [*(d.data_end - 1)]. *)
Definition last_byte (buf : list Z) (d : datum) : Z :=
  deref buf (ptr_add (data_end d) (-1)).

(** The constructor body. *)
Definition ctor_body (buf : list Z) (g : mysql_server_greet)
  : P mysql_server_greet :=
  if (length (version g) <? 6) || negb (last_byte buf (version g) =? 0x00) then
    ret (set_valid g false)
  else
    let if_auth_plugin := auth_plugin_len g >? 0 in
    let maj_ver := deref buf (data (version g)) in
    let min_ver := deref buf (ptr_add (data (version g)) 2) in
    let is_ver_less_41 :=
      (maj_ver <? 52) || ((maj_ver =? 52) && (min_ver <? 49)) in
    let g := set_versions g if_auth_plugin is_ver_less_41 in
    if (maj_ver <? 53) && if_auth_plugin then
      ret (set_valid g false)
    else
      let partial_salt := negb is_ver_less_41 in
      let is_mariadb :=
        (length (version g) >? 9) || negb (Z.testbit (cap g) 0) in
      mariadb_ext_cap <-
        (if is_mariadb then
           _ <- skip_n 6 ;;
           encoded buf 4 false
         else
           _ <- skip_n 10 ;;
           ret (mariadb_ext_cap g)) ;;
      salt_2 <- (if partial_salt then parse_n 13 else ret (salt_2 g)) ;;
      if partial_salt
         && ((negb (length salt_2 =? 13)) || negb (last_byte buf salt_2 =? 0x00))
      then
        ret (set_tail g partial_salt is_mariadb mariadb_ext_cap salt_2 false
               (auth_plugin g))
      else
        auth_plugin <-
          (if if_auth_plugin then parse_n (auth_plugin_len g + 1)
           else ret (auth_plugin g)) ;;
        rest <- pkt_length ;;
        if negb (rest =? 0) then
          ret (set_tail g partial_salt is_mariadb mariadb_ext_cap salt_2 false
                 auth_plugin)
        else
          ret (set_tail g partial_salt is_mariadb mariadb_ext_cap salt_2
                 (valid g) auth_plugin).

(** [mysql_server_greet(datum &pkt)]; returns the record and [pkt]. *)
Definition mysql_server_greet_ctor (buf : list Z) : P mysql_server_greet :=
  g <- member_init buf ;;
  ctor_body buf g.

Definition is_not_empty (g : mysql_server_greet) : bool := valid g.

(** *** Serialisation

    The calls made on the emitter, in order; [None] when an array is
    indexed outside its bounds or an unassigned flag is read. *)

(** Modelled from the spec: [json_object.h] is not among the sources; the
    emitter is "an abstract structured writer" taking typed key/value
    calls. *)
Inductive emit :=
| json_object_open (key : string)
| print_key_json_string (key : string) (value : list Z)
| print_key_string (key : string) (value : string)
| print_key_int (key : string) (value : Z)
| print_key_hex (key : string) (value : list Z)
| print_key_uint16_hex (key : string) (value : Z)
| print_key_bool (key : string) (value : bool)
| json_array_strings (key : string) (values : list string)
| json_object_close.

Definition W : Type := option (list emit).

Definition seqW (a b : W) : W :=
  match a, b with
  | Some x, Some y => Some (x ++ y)
  | _, _ => None
  end.

Notation "a ;;; b" := (seqW a b) (at level 62, right associativity).

Definition say (e : emit) : W := Some [e].

Definition skipW : W := Some [].

(** [a[i]] for a constant table: defined inside its bounds only. *)
Definition array_get (a : list string) (i : Z) : option string :=
  if (0 <=? i) && (i <? Z.of_nat (List.length a)) then nth_error a (Z.to_nat i)
  else None.

(** The loop [for (i = 0; i < 16; i++) if (val & (1UL << i)) print_string(a[i])]. *)
Definition flag_names (a : list string) (val : Z) : option (list string) :=
  fold_left
    (fun acc i =>
       match acc with
       | None => None
       | Some names =>
           if Z.testbit val (Z.of_nat i) then
             match array_get a (Z.of_nat i) with
             | Some s => Some (names ++ [s])
             | None => None
             end
           else Some names
       end)
    (seq 0 16) (Some []).

Definition flags_json (key : string) (a : list string) (val : Z)
    (output_metadata : bool) : W :=
  if output_metadata then
    match flag_names a val with
    | Some names => say (json_array_strings key names)
    | None => None
    end
  else skipW.

(** [capabilities::write_json]: the value is printed from its two bytes
    in memory. *)
Definition capabilities_write_json (val : Z) (output_metadata : bool) : W :=
  say (print_key_hex "capabilities_value" [val mod 256; val / 256]) ;;;
  flags_json "capabilities_str" options val output_metadata.

Definition extended_capabilities_write_json (ext_val : Z)
    (output_metadata : bool) : W :=
  say (print_key_uint16_hex "extended_capabilities_value" ext_val) ;;;
  flags_json "ext_capabilities_str" extended_options ext_val output_metadata.

Definition server_status_write_json (status : Z) (output_metadata : bool) : W :=
  say (print_key_uint16_hex "server_status_value" status) ;;;
  flags_json "server_status_str" server_status_str status output_metadata.

(** Modelled from the spec: a salt fragment "trimmed of its terminator"
    ([datum::trim] and [data_buffer] are not among the sources). *)
Definition without_terminator (buf : list Z) (d : datum) : list Z :=
  removelast (bytes buf d).

Definition flag (f : option bool) (k : bool -> W) : W :=
  match f with Some b => k b | None => None end.

(** The index expression [collation.value() - 1], in [int]. *)
Definition collation_index (g : mysql_server_greet) : Z := collation g - 1.

(** [mysql_server_greet::write_json(record, output_metadata)]. *)
Definition write_json (buf : list Z) (g : mysql_server_greet)
    (output_metadata : bool) : W :=
  if negb (valid g) then skipW
  else
    say (json_object_open "mysql_server") ;;;
    say (print_key_json_string "version" (bytes buf (version g))) ;;;
    (if output_metadata then say (print_key_int "pkt_num" (pkt_num g))
     else skipW) ;;;
    flag (partial_salt g) (fun partial_salt =>
      if negb partial_salt then
        say (print_key_json_string "salt" (without_terminator buf (salt_1 g)))
      else
        say (print_key_json_string "salt"
               (without_terminator buf (salt_1 g)
                  ++ without_terminator buf (salt_2 g)))) ;;;
    capabilities_write_json (cap g) output_metadata ;;;
    match array_get mysql_collations (collation_index g) with
    | Some name => say (print_key_string "collation" name)
    | None => None
    end ;;;
    server_status_write_json (srv_status g) output_metadata ;;;
    extended_capabilities_write_json (ext_cap g) output_metadata ;;;
    (if negb (auth_plugin_len g =? 0) then
       say (print_key_int "auth_plugin_len" (auth_plugin_len g)) ;;;
       say (print_key_json_string "auth_plugin" (bytes buf (auth_plugin g)))
     else skipW) ;;;
    flag (is_mariadb g) (fun is_mariadb =>
      if is_mariadb then
        say (print_key_bool "mariadb" true) ;;;
        say (print_key_int "mariadb_extended" (mariadb_ext_cap g))
      else say (print_key_bool "mariadb" false)) ;;;
    say json_object_close.

(** The cursor over a whole packet buffer. *)
Definition whole (buf : list Z) : datum :=
  mk_datum (Some 0) (Some (Z.of_nat (List.length buf))).

(** *** Sample packets *)

(** A MySQL 5.7.0 greeting: capability bit 0 set, no auth plugin, second salt
    of 13 bytes ending in NUL (55 bytes). *)
Definition greeting_mysql57 : list Z :=
  [51; 0; 0; 0; 10; 53; 46; 55; 46; 48; 0; 42; 0; 0; 0; 97; 98; 99; 100;
   101; 102; 103; 104; 0; 255; 247; 8; 2; 0; 255; 129; 0; 0; 0; 0; 0; 0;
   0; 0; 0; 0; 0; 105; 106; 107; 108; 109; 110; 111; 112; 113; 114; 115;
   116; 0].

(** The same greeting with collation id byte 0 (55 bytes). *)
Definition greeting_collation_0 : list Z :=
  [51; 0; 0; 0; 10; 53; 46; 55; 46; 48; 0; 42; 0; 0; 0; 97; 98; 99; 100;
   101; 102; 103; 104; 0; 255; 247; 0; 2; 0; 255; 129; 0; 0; 0; 0; 0; 0;
   0; 0; 0; 0; 0; 105; 106; 107; 108; 109; 110; 111; 112; 113; 114; 115;
   116; 0].

(** A MariaDB greeting: version 5.5.5-10.4.8-MariaDB, reserved bytes, then
    the extended-capability bytes 07 00 00 00 at offsets 53 to 56
    (92 bytes). *)
Definition greeting_mariadb : list Z :=
  [88; 0; 0; 0; 10; 53; 46; 53; 46; 53; 45; 49; 48; 46; 52; 46; 56; 45;
   77; 97; 114; 105; 97; 68; 66; 0; 42; 0; 0; 0; 97; 98; 99; 100; 101;
   102; 103; 104; 0; 254; 247; 8; 2; 0; 255; 129; 21; 0; 0; 0; 0; 0; 0;
   7; 0; 0; 0; 105; 106; 107; 108; 109; 110; 111; 112; 113; 114; 115;
   116; 0; 109; 121; 115; 113; 108; 95; 110; 97; 116; 105; 118; 101; 95;
   112; 97; 115; 115; 119; 111; 114; 100; 0].

(** A MySQL 5.7.0 greeting that announces a 21-byte auth plugin name and is
    cut after the first 5 bytes of the name (60 bytes). *)
Definition greeting_truncated_plugin : list Z :=
  [73; 0; 0; 0; 10; 53; 46; 55; 46; 48; 0; 42; 0; 0; 0; 97; 98; 99; 100;
   101; 102; 103; 104; 0; 255; 247; 8; 2; 0; 255; 129; 21; 0; 0; 0; 0; 0;
   0; 0; 0; 0; 0; 105; 106; 107; 108; 109; 110; 111; 112; 113; 114; 115;
   116; 0; 109; 121; 115; 113; 108].

(** A greeting whose version string, 5.7 and its NUL, has 4 bytes
    (53 bytes). *)
Definition greeting_short_version : list Z :=
  [49; 0; 0; 0; 10; 53; 46; 55; 0; 42; 0; 0; 0; 97; 98; 99; 100; 101;
   102; 103; 104; 0; 255; 247; 8; 2; 0; 255; 129; 0; 0; 0; 0; 0; 0; 0; 0;
   0; 0; 0; 105; 106; 107; 108; 109; 110; 111; 112; 113; 114; 115; 116; 0].

(** The little-endian value of [n] bytes of [buf] from offset [off]. *)
Definition le_value_at (buf : list Z) (off : Z) (n : nat) : Z :=
  be_value (rev (firstn n (skipn (Z.to_nat off) buf))).

(** The constructor run on a whole packet. *)
Definition greet (buf : list Z) : mysql_server_greet * datum :=
  mysql_server_greet_ctor buf (whole buf).

(** The cursor is where the initialiser of [version] left it: no later
    field has been consumed. *)
Definition consumes_nothing_after_version (buf : list Z) (pkt : datum) : Prop :=
  snd (mysql_server_greet_ctor buf pkt) = snd (init_upto_version buf pkt).

End Mysql.

(** ** UDP classification, byte by byte *)

Module UdpBytes.
Import Udp.

(** [(d[i] & m[i]) == v[i]] for every index of three byte strings. *)
Fixpoint masked_eq (ds ms vs : list Z) : bool :=
  match ds, ms, vs with
  | d :: ds', m :: ms', v :: vs' => (Z.land d m =? v) && masked_eq ds' ms' vs'
  | _, _, _ => true
  end.

(** The byte of the payload at offset [i]. *)
Definition at_ (udp_data : list Z) (i : nat) : Z := nth i udp_data 0.

(** The first four bytes of the payload are [a b c d]. *)
Definition starts4 (udp_data : list Z) (a b c d : Z) : bool :=
  (at_ udp_data 0 =? a) && (at_ udp_data 1 =? b)
  && (at_ udp_data 2 =? c) && (at_ udp_data 3 =? d).

(** A DTLS handshake record header: content type 0x16, version 0xfe 0xf?. *)
Definition dtls_prefix (udp_data : list Z) : bool :=
  (at_ udp_data 0 =? 0x16) && (at_ udp_data 1 =? 0xfe)
  && (Z.land (at_ udp_data 2) 0xf0 =? 0xf0).

(** A DNS header with flags [f1 f2], QDCOUNT below 256 and ANCOUNT below
    256 (bytes 4 and 6 zero). *)
Definition dns_header (udp_data : list Z) (f1 f2 : Z) : bool :=
  (at_ udp_data 2 =? f1) && (at_ udp_data 3 =? f2)
  && (at_ udp_data 4 =? 0) && (at_ udp_data 6 =? 0).

Definition quic_prefix (udp_data : list Z) : bool :=
  (Z.land (at_ udp_data 0) 0xf0 =? 0xc0)
  && (at_ udp_data 2 =? 0) && (at_ udp_data 3 =? 0).

(** The classification read off the mask and value arrays. *)
Definition classify (udp_data : list Z) (len : Z) : udp_msg_type :=
  if len <? 8 then udp_msg_type_unknown
  else if starts4 udp_data 0x01 0x01 0x06 0x00 then udp_msg_type_dhcp
  else if dtls_prefix udp_data && (at_ udp_data 13 =? 0x01)
       then udp_msg_type_dtls_client_hello
  else if dtls_prefix udp_data && (at_ udp_data 13 =? 0x02)
       then udp_msg_type_dtls_server_hello
  else if dns_header udp_data 0x81 0x80 then udp_msg_type_dns
  else if dns_header udp_data 0x01 0x00 then udp_msg_type_dns
  else if starts4 udp_data 0x01 0x00 0x00 0x00 then udp_msg_type_wireguard
  else if quic_prefix udp_data then udp_msg_type_quic
  else udp_msg_type_unknown.

(** The mask/value test of a rule over its [2 * width] bytes, "for every
    index i in [0, L), (candidate[i] & mask[i]) == value[i]". *)
Definition rule_bytes (udp_data : list Z) (r : rule) : bool :=
  let L := (2 * rule_width r)%nat in
  masked_eq (map (at_ udp_data) (seq 0 L)) (map (at_ (rule_mask r)) (seq 0 L))
    (map (at_ (rule_value r)) (seq 0 L)).

(** The tables of a rule hold bytes. *)
Definition rule_tables_ok (r : rule) : Prop :=
  Forall is_byte (rule_mask r) /\ Forall is_byte (rule_value r).

(** A payload that begins like a DTLS record and one that is a DHCP
    request. *)
Definition dtls_stub : list Z := [0x16; 0xfe; 0xfd; 0; 0; 0; 0; 0; 0; 0].

Definition dhcp_stub : list Z := [0x01; 0x01; 0x06; 0x00; 0xde; 0xad; 0xbe; 0xef].

End UdpBytes.

(** ** MySQL greeting: specification-side definitions *)

Module MysqlSpec.
Import Mysql.

(** The positions of the bits of [val] that are set, among the low 16, in
    increasing order. *)
Definition set_bits (val : Z) : list nat :=
  filter (fun i => Z.testbit val (Z.of_nat i)) (seq 0 16).

(** The names a table gives to the set bits of [val]. *)
Definition names_of (a : list string) (val : Z) : list string :=
  map (fun i => nth i a EmptyString) (set_bits val).

(** The first byte of the version string, as the constructor reads it. *)
Definition maj_ver (buf : list Z) (g : mysql_server_greet) : Z :=
  deref buf (data (version g)).

(** The third byte of the version string. *)
Definition min_ver (buf : list Z) (g : mysql_server_greet) : Z :=
  deref buf (ptr_add (data (version g)) 2).

(** The version string starts below "4.1": major below '4', or major '4'
    and the third character below '1'. *)
Definition ver_less_41 (buf : list Z) (g : mysql_server_greet) : bool :=
  (maj_ver buf g <? 52) || ((maj_ver buf g =? 52) && (min_ver buf g <? 49)).

(** The MariaDB heuristic of the constructor. *)
Definition mariadb_heuristic (g : mysql_server_greet) : bool :=
  (length (version g) >? 9) || negb (Z.testbit (cap g) 0).

(** Two buffers with the same bytes from offset 5 on. *)
Definition agree_from_5 (b1 b2 : list Z) : Prop :=
  forall a, 5 <= a -> load b1 a = load b2 a.

(** The cursor points at offset 5 or later, or is null. *)
Definition past_header (d : datum) : Prop :=
  forall a, data d = Some a -> 5 <= a.

(** The byte before the end of the datum is at offset 5 or later. *)
Definition ends_past_header (d : datum) : Prop :=
  forall e, data_end d = Some e -> 6 <= e.

(** Two records that differ at most in the three header fields: the
    declared length, the sequence number and the protocol byte. *)
Definition same_but_header (g1 g2 : mysql_server_greet) : Prop :=
  version g1 = version g2 /\ thread_id g1 = thread_id g2
  /\ salt_1 g1 = salt_1 g2 /\ cap g1 = cap g2
  /\ collation g1 = collation g2 /\ srv_status g1 = srv_status g2
  /\ ext_cap g1 = ext_cap g2 /\ auth_plugin_len g1 = auth_plugin_len g2
  /\ if_auth_plugin g1 = if_auth_plugin g2
  /\ is_ver_less_41 g1 = is_ver_less_41 g2
  /\ is_mariadb g1 = is_mariadb g2 /\ partial_salt g1 = partial_salt g2
  /\ salt_2 g1 = salt_2 g2 /\ valid g1 = valid g2
  /\ mariadb_ext_cap g1 = mariadb_ext_cap g2
  /\ auth_plugin g1 = auth_plugin g2.

(** The round-trip greeting with a declared length of 0, sequence number
    0xff and protocol byte 0x63. *)
Definition greeting_odd_header : list Z :=
  [0; 0; 0; 255; 99] ++ skipn 5 greeting_mysql57.

End MysqlSpec.

(** ** Tofsee: serialisation ([tofsee_initial_message::write_json]) *)

Module TofseeJson.
Import Tofsee.

(** Modelled from the spec: [json_object.h] is not among the sources; the
    calls [write_json] makes on the emitter. *)
Inductive emit :=
| json_object_open (key : string)
| print_key_hex (key : string) (value : list Z)
| print_key_ipv4_addr (key : string) (value : list Z)
| json_object_close.

(** The four bytes [print_key_ipv4_addr] reads from the pointer it is
    given. *)
Definition ipv4_bytes (m : tofsee_initial_message) : list Z :=
  match buffer (tim_pt m) with
  | Some b => map (fun i => deref b (ptr_add (data (ipv4 m)) i)) [0; 1; 2; 3]
  | None => map (fun i => deref [] (ptr_add (data (ipv4 m)) i)) [0; 1; 2; 3]
  end.

(** [void write_json(json_object &o, bool=true) const]. *)
Definition write_json (m : tofsee_initial_message) : list emit :=
  if negb (is_not_empty m) then []
  else
    [ json_object_open "tofsee_initial_message";
      print_key_hex "key" (plain_bytes m (key m));
      print_key_hex "unknown_1" (plain_bytes m (unknown_1 m));
      print_key_ipv4_addr "bot_ip" (ipv4_bytes m);
      print_key_hex "srv_time" (plain_bytes m (srv_time m));
      print_key_hex "unknown_2" (plain_bytes m (unknown_2 m));
      json_object_close ].

(** The byte strings a sequence of emitter calls carries, in order. *)
Definition payload (e : emit) : list Z :=
  match e with
  | print_key_hex _ v | print_key_ipv4_addr _ v => v
  | _ => []
  end.

End TofseeJson.

(** ** Binding the shared library ([libmerc_api.h]) *)

Module LibmercApi.

(** A function pointer or library handle: an address, or [None] for
    [nullptr]. *)
Definition fnptr := option Z.

(** [struct libmerc_api]: the API version, the function pointers in
    declaration order, and the handle. *)
Record libmerc_api := mk_api {
  libmerc_version : Z;
  init : fnptr;
  finalize : fnptr;
  packet_processor_construct : fnptr;
  packet_processor_destruct : fnptr;
  get_analysis_context : fnptr;
  get_analysis_context_linktype : fnptr;
  get_fingerprint_type : fnptr;
  get_fingerprint_status : fnptr;
  get_fingerprint_string : fnptr;
  get_server_name : fnptr;
  get_alpns : fnptr;
  get_user_agent : fnptr;
  get_process_info : fnptr;
  get_malware_info : fnptr;
  write_stats_data : fnptr;
  register_printf_err : fnptr;
  dl_handle : fnptr
}.

(** The default member initialisers. *)
Definition api_init : libmerc_api :=
  mk_api 0 None None None None None None None None None None None None None
    None None None None.

(** The lines [bind] prints on [stderr]. *)
Inductive message :=
| failed_to_load
| loading
| error_v1_pointers
| note_v2_pointers
| note_v3_pointers
| api_version_found (version : Z)
| bind_succeeded.

Definition is_null (p : fnptr) : bool :=
  match p with None => true | Some _ => false end.

(** [int bind(const char *lib_path)].  [dlopen_result] is what [dlopen]
    returns for [lib_path] and [dlsym] what the library resolves a symbol
    name to.  Returns the status, the object and the lines printed. *)
Definition bind (dlopen_result : fnptr) (dlsym : string -> fnptr)
    (api : libmerc_api) : Z * libmerc_api * list message :=
  let dl_handle := dlopen_result in
  if is_null dl_handle then
    (-1,
     mk_api (libmerc_version api) (init api) (finalize api)
       (packet_processor_construct api) (packet_processor_destruct api)
       (get_analysis_context api) (get_analysis_context_linktype api)
       (get_fingerprint_type api) (get_fingerprint_status api)
       (get_fingerprint_string api) (get_server_name api) (get_alpns api)
       (get_user_agent api) (get_process_info api) (get_malware_info api)
       (write_stats_data api) (register_printf_err api) dl_handle,
     [failed_to_load])
  else
    let init := dlsym "mercury_init"%string in
    let finalize := dlsym "mercury_finalize"%string in
    let packet_processor_construct :=
      dlsym "mercury_packet_processor_construct"%string in
    let packet_processor_destruct :=
      dlsym "mercury_packet_processor_destruct"%string in
    let get_analysis_context :=
      dlsym "mercury_packet_processor_get_analysis_context"%string in
    let get_fingerprint_type :=
      dlsym "analysis_context_get_fingerprint_type"%string in
    let get_fingerprint_status :=
      dlsym "analysis_context_get_fingerprint_status"%string in
    let get_fingerprint_string :=
      dlsym "analysis_context_get_fingerprint_string"%string in
    let get_server_name := dlsym "analysis_context_get_server_name"%string in
    let get_process_info := dlsym "analysis_context_get_process_info"%string in
    let get_malware_info := dlsym "analysis_context_get_malware_info"%string in
    let write_stats_data := dlsym "mercury_write_stats_data"%string in
    if is_null init || is_null finalize
       || is_null packet_processor_construct
       || is_null packet_processor_destruct
       || is_null get_analysis_context
       || is_null get_fingerprint_type
       || is_null get_fingerprint_status
       || is_null get_fingerprint_string
       || is_null get_process_info
       || is_null get_malware_info
       || is_null write_stats_data
    then
      (-1,
       mk_api (libmerc_version api) init finalize packet_processor_construct
         packet_processor_destruct get_analysis_context
         (get_analysis_context_linktype api) get_fingerprint_type
         get_fingerprint_status get_fingerprint_string get_server_name
         (get_alpns api) (get_user_agent api) get_process_info
         get_malware_info write_stats_data (register_printf_err api)
         dl_handle,
       [loading; error_v1_pointers])
    else
      let version1 := 1 in
      let register_printf_err := dlsym "register_printf_err_callback"%string in
      let '(version2, log2) :=
        if is_null register_printf_err then (version1, [note_v2_pointers])
        else (2, []) in
      let get_analysis_context_linktype :=
        dlsym "mercury_packet_processor_get_analysis_context_linktype"%string in
      let get_alpns := dlsym "analysis_context_get_alpns"%string in
      let get_user_agent := dlsym "analysis_context_get_user_agent"%string in
      let '(version3, log3) :=
        if is_null get_analysis_context_linktype
           || is_null get_user_agent
           || is_null get_alpns
        then (version2, [note_v3_pointers])
        else (3, []) in
      (0,
       mk_api version3 init finalize packet_processor_construct
         packet_processor_destruct get_analysis_context
         get_analysis_context_linktype get_fingerprint_type
         get_fingerprint_status get_fingerprint_string get_server_name
         get_alpns get_user_agent get_process_info get_malware_info
         write_stats_data register_printf_err dl_handle,
       [loading] ++ log2 ++ log3
         ++ [api_version_found version3; bind_succeeded]).

(** [libmerc_api(const char *lib_path)]: [None] when the constructor
    throws. *)
Definition libmerc_api_ctor (dlopen_result : fnptr) (dlsym : string -> fnptr)
  : option libmerc_api :=
  let '(status, api, _) := bind dlopen_result dlsym api_init in
  if negb (status =? 0) then None else Some api.

(** *** Specification-side definitions *)

(** The symbols whose pointers the v1 check tests. *)
Definition v1_checked : list string :=
  [ "mercury_init"; "mercury_finalize"; "mercury_packet_processor_construct";
    "mercury_packet_processor_destruct";
    "mercury_packet_processor_get_analysis_context";
    "analysis_context_get_fingerprint_type";
    "analysis_context_get_fingerprint_status";
    "analysis_context_get_fingerprint_string";
    "analysis_context_get_process_info";
    "analysis_context_get_malware_info";
    "mercury_write_stats_data" ]%string.

Definition v2_symbols : list string :=
  [ "register_printf_err_callback" ]%string.

Definition v3_symbols : list string :=
  [ "mercury_packet_processor_get_analysis_context_linktype";
    "analysis_context_get_user_agent";
    "analysis_context_get_alpns" ]%string.

Definition resolves (dlsym : string -> fnptr) (names : list string) : bool :=
  forallb (fun n => negb (is_null (dlsym n))) names.

(** A library that exports the names of [l] and no other. *)
Definition exports (l : list string) : string -> fnptr :=
  fun n => if existsb (String.eqb n) l then Some 1 else None.

End LibmercApi.

(** * Properties *)

(** ** Bytes *)

Lemma to_u8_byte x : is_byte x -> to_u8 x = x.
Proof. unfold is_byte, to_u8. intros H. now apply Z.mod_small. Qed.

Lemma lxor_byte a b : is_byte a -> is_byte b -> is_byte (Z.lxor a b).
Proof.
  unfold is_byte. intros Ha Hb.
  assert (Hn : 0 <= Z.lxor a b) by (apply Z.lxor_nonneg; lia).
  split; [exact Hn|].
  destruct (Z.eq_dec (Z.lxor a b) 0) as [E|E]; [lia|].
  apply (Z.log2_lt_pow2 _ 8); [lia|].
  pose proof (Z.log2_lxor a b ltac:(lia) ltac:(lia)) as Hl.
  assert (Z.log2 a < 8).
  { destruct (Z.eq_dec a 0) as [->|]; [cbn; lia|].
    apply Z.log2_lt_pow2; lia. }
  assert (Z.log2 b < 8).
  { destruct (Z.eq_dec b 0) as [->|]; [cbn; lia|].
    apply Z.log2_lt_pow2; lia. }
  lia.
Qed.


(** ** Tofsee *)

Section TofseeFacts.
Import Tofsee.

Lemma rotl_is_rotl8 x : is_byte x -> rotl 5 x = rotl8 5 x.
Proof.
  intros Hx.
  assert (Hall : forallb (fun n => rotl 5 (Z.of_nat n) =? rotl8 5 (Z.of_nat n))
                   (seq 0 256) = true) by (vm_compute; reflexivity).
  rewrite forallb_forall in Hall.
  specialize (Hall (Z.to_nat x)).
  rewrite Z2Nat.id in Hall by (unfold is_byte in Hx; lia).
  apply Z.eqb_eq, Hall, in_seq. unfold is_byte in Hx. lia.
Qed.

Lemma rotl_byte x : is_byte (rotl 5 x).
Proof. unfold rotl, to_u8, is_byte. apply Z.mod_pos_bound. lia. Qed.

Lemma decrypt_loop_length mem p n res :
  List.length (decrypt_loop mem p n res) = n.
Proof. revert p res. induction n; intros; cbn; [reflexivity|]. now rewrite IHn. Qed.

Lemma decrypt_loop_nth mem a n res i :
  (i < n)%nat ->
  nth i (decrypt_loop mem (Some a) n res) 0 =
    to_u8 (Z.lxor
             (match i with
              | O => res
              | S j => to_u8 (Z.lxor (load mem (a + Z.of_nat j)) 0xc6)
              end)
             (rotl 5 (load mem (a + Z.of_nat i)))).
Proof.
  revert a res i. induction n as [|n IH]; intros a res i Hi; [lia|].
  destruct i as [|i].
  - cbn [decrypt_loop nth deref]. now rewrite Z.add_0_r.
  - cbn [decrypt_loop nth deref ptr_add]. rewrite IH by lia.
    replace (a + 1 + Z.of_nat i) with (a + Z.of_nat (S i)) by lia.
    destruct i as [|i]; [now rewrite Z.add_0_r|].
    now replace (a + 1 + Z.of_nat i) with (a + Z.of_nat (S i)) by lia.
Qed.

Lemma load_nth (l : list Z) (i : nat) : load l (0 + Z.of_nat i) = nth i l 0.
Proof. unfold load. now rewrite Z.add_0_l, Nat2Z.id. Qed.

Lemma Forall_nth_byte (l : list Z) i : Forall is_byte l -> is_byte (nth i l 0).
Proof.
  intros H. destruct (Nat.lt_ge_cases i (List.length l)) as [Hi|Hi].
  - rewrite Forall_forall in H. now apply H, nth_In.
  - rewrite nth_overflow by exact Hi. unfold is_byte. lia.
Qed.

(** C7: for a ciphertext buffer [ct] of length n, [decrypt] writes n bytes
    with plaintext[0] = 0xC6 xor rotl8(ct[0], 5) and, for 1 <= i < n,
    plaintext[i] = (ct[i-1] xor 0xC6) xor rotl8(ct[i], 5); the state byte
    starts at 198 = 0xC6. *)
Theorem C7_decrypt_formula (ct : list Z) (i : nat) :
  Forall is_byte ct ->
  (i < List.length ct)%nat ->
  let plaintext := decrypt ct (Some 0) (List.length ct) in
  List.length plaintext = List.length ct /\
  nth i plaintext 0 =
    match i with
    | O => Z.lxor 0xC6 (rotl8 5 (nth 0 ct 0))
    | S j => Z.lxor (Z.lxor (nth j ct 0) 0xC6) (rotl8 5 (nth i ct 0))
    end.
Proof.
  intros Hb Hi plaintext. subst plaintext. unfold decrypt. split.
  - apply decrypt_loop_length.
  - rewrite decrypt_loop_nth by exact Hi.
    rewrite !load_nth.
    assert (H198 : is_byte 198) by (unfold is_byte; lia).
    pose proof (Forall_nth_byte ct i Hb) as Hci.
    destruct i as [|j].
    + rewrite to_u8_byte by (apply lxor_byte; [exact H198|apply rotl_byte]).
      now rewrite rotl_is_rotl8.
    + rewrite load_nth.
      pose proof (Forall_nth_byte ct j Hb) as Hcj.
      rewrite (to_u8_byte (Z.lxor (nth j ct 0) 198)) by now apply lxor_byte.
      rewrite to_u8_byte
        by (apply lxor_byte; [now apply lxor_byte|apply rotl_byte]).
      now rewrite rotl_is_rotl8.
Qed.

Lemma C7_decrypt_formula_witness :
  let ct := [0xff; 0xd4; 0x33; 0xb9] in
  nth 2 (decrypt ct (Some 0) 4) 0 = Z.lxor (Z.lxor 0xd4 0xC6) (rotl8 5 0x33).
Proof.
  intros ct.
  refine (proj2 (C7_decrypt_formula ct 2 _ _)).
  - repeat constructor; unfold is_byte; lia.
  - cbn; lia.
Defined.

Lemma map_nth_seq (b : list Z) (a n : nat) :
  (a + n <= List.length b)%nat ->
  map (fun i => nth i b 0) (seq a n) = firstn n (skipn a b).
Proof.
  revert a b. induction n as [|n IH]; intros a b H; [reflexivity|].
  cbn [seq map].
  destruct (skipn a b) as [|x r] eqn:E.
  - pose proof (f_equal (@List.length Z) E) as HL.
    rewrite length_skipn in HL. cbn in HL. lia.
  - cbn [firstn]. f_equal.
    + rewrite <- (firstn_skipn a b) at 1.
      rewrite app_nth2 by (rewrite length_firstn; lia).
      rewrite length_firstn, E.
      replace (a - Nat.min a (List.length b))%nat with O by lia.
      reflexivity.
    + rewrite IH by lia.
      replace (S a) with (1 + a)%nat by lia.
      rewrite <- skipn_skipn, E. reflexivity.
Qed.

Lemma map_seq_from {A} (f : nat -> A) (s n : nat) :
  map f (seq s n) = map (fun i => f (s + i)%nat) (seq 0 n).
Proof.
  revert f. induction s as [|s IH]; intros f.
  - apply map_ext. reflexivity.
  - rewrite <- seq_shift, map_map, IH. apply map_ext. reflexivity.
Qed.

Lemma bytes_nth_seq (b : list Z) (lo hi : Z) :
  0 <= lo ->
  bytes b (mk_datum (Some lo) (Some hi)) =
    map (fun i => nth i b 0) (seq (Z.to_nat lo) (Z.to_nat (hi - lo))).
Proof.
  intros H. unfold bytes. cbn [data data_end].
  generalize (Z.to_nat (hi - lo)); intros n.
  rewrite (map_seq_from _ (Z.to_nat lo)).
  apply map_ext. intros i. unfold load. f_equal. lia.
Qed.

Lemma fold_left_weight (l : list Z) (w : Z) :
  fold_left (fun w x => w + popcount x) l w = w + hamming_weight l.
Proof.
  revert w. induction l as [|x l IH]; intros w; cbn [fold_left hamming_weight fold_right].
  - lia.
  - rewrite IH. fold (hamming_weight l). lia.
Qed.

(** The record built from a 200-byte input: the five fields tile the
    internal buffer. *)
Lemma tofsee_ctor_200 mem ct :
  Datum.length ct = 200 ->
  tofsee_ctor mem ct =
    (mk_tofsee
       (mk_plaintext (mk_datum (Some 200) (Some 200))
          (Some (decrypt mem (data ct) 200)))
       (mk_datum (Some 0) (Some 128))
       (mk_datum (Some 128) (Some 144))
       (mk_datum (Some 144) (Some 148))
       (mk_datum (Some 148) (Some 152))
       (mk_datum (Some 152) (Some 200)),
     ct).
Proof.
  intros H. unfold tofsee_ctor, plaintext_ctor, sizeof_buffer.
  rewrite H. cbn [Z.eqb Pos.eqb negb pt buffer].
  change (Z.to_nat 200) with 200%nat.
  generalize (decrypt mem (data ct) 200); intros b.
  reflexivity.
Qed.

Lemma tofsee_ctor_not_200 mem ct :
  Datum.length ct <> 200 ->
  tofsee_ctor mem ct =
    (mk_tofsee (mk_plaintext null None) null null null null null, null).
Proof.
  intros H. unfold tofsee_ctor, plaintext_ctor, sizeof_buffer.
  apply Z.eqb_neq in H. rewrite H. reflexivity.
Qed.






(** C10: the constructor sets the caller's datum to the null state when
    its length is not 200, and leaves it as it was when the length is 200
    (the fields are sliced from the internal decrypted copy). *)
Theorem C10_input_datum_frame (mem : list Z) (ct : datum) :
  snd (tofsee_ctor mem ct) =
    (if Datum.length ct =? 200 then ct else set_null ct)
  /\ is_not_null (set_null ct) = false.
Proof.
  split; [|reflexivity].
  destruct (Z.eq_dec (Datum.length ct) 200) as [H|H].
  - rewrite tofsee_ctor_200 by exact H. now rewrite H.
  - rewrite tofsee_ctor_not_200 by exact H.
    apply Z.eqb_neq in H. now rewrite H.
Qed.

(** The two tests of [unit_test]: the observed message is accepted (the
    weight of its [unknown_1] is 7), 200 bytes of 0xff are not. *)
Example unit_test_true_positive :
  is_not_empty (fst (tofsee_of tim_ciphertext)) = true
  /\ hamming_weight (unknown_1_plain tim_ciphertext
                       (mk_datum (Some 0) (Some 200))) = 7.
Proof. vm_compute. split; reflexivity. Qed.

Example unit_test_false_positive :
  is_not_empty (fst (tofsee_of (repeat 0xff 200))) = false.
Proof. vm_compute. reflexivity. Qed.

End TofseeFacts.

(** ** UDP classifier *)

Section UdpFacts.
Import Udp.

Lemma result_bind {A B} (m : R A) (f : A -> R B) :
  result (bind m f) = result (f (result m)).
Proof.
  unfold result, bind. destruct m as [l1 a]. cbn [snd].
  now destruct (f a).
Qed.


Lemma result_if {A} (b : bool) (x y : R A) :
  result (if b then x else y) = if b then result x else result y.
Proof. now destruct b. Qed.

(** C8: the rules are tried in the order DHCP-client, DTLS-client-hello,
    DTLS-server-hello, DNS-server-response, DNS-client-query, WireGuard,
    QUIC and the tag of the first one that matches is returned, [unknown]
    when none does; so an input of sufficient length that satisfies the
    DHCP-client rule is tagged DHCP whatever later rules (QUIC among them)
    it satisfies. *)
Theorem C8_first_match_in_priority_order (udp_data : list Z) (len : Z) :
  result (udp_get_message_type udp_data len) =
    (if len <? 8 then udp_msg_type_unknown
     else first_match udp_rules udp_data)
  /\ (8 <= len ->
      rule_matches udp_data dhcp_rule = true ->
      result (udp_get_message_type udp_data len) = udp_msg_type_dhcp).
Proof.
  assert (E : result (udp_get_message_type udp_data len) =
                (if len <? 8 then udp_msg_type_unknown
                 else first_match udp_rules udp_data)).
  { unfold udp_get_message_type.
    change (sizeof dhcp_client_mask) with 8.
    destruct (len <? 8); [reflexivity|].
    unfold first_match, udp_rules, find, rule_matches, dhcp_rule, quic_rule.
    cbn [rule_width rule_mask rule_value rule_tag].
    unfold u32_compare_masked_data_to_value, u64_compare_masked_data_to_value.
    repeat (rewrite result_bind, result_if;
            match goal with
            | |- context [result (compare_masked_data_to_value ?w ?d ?m ?v)] =>
                destruct (result (compare_masked_data_to_value w d m v));
                [reflexivity|]
            end).
    reflexivity. }
  split; [exact E|].
  intros Hlen Hdhcp. rewrite E.
  apply Z.ltb_ge in Hlen. rewrite Hlen.
  unfold first_match, udp_rules, find.
  now rewrite Hdhcp.
Qed.

Lemma C8_first_match_in_priority_order_witness :
  result (udp_get_message_type [0x01; 0x01; 0x06; 0x00; 0xde; 0xad; 0xbe; 0xef] 8)
    = udp_msg_type_dhcp.
Proof.
  refine (proj2 (C8_first_match_in_priority_order _ 8) _ _).
  - lia.
  - vm_compute. reflexivity.
Defined.

(** No payload satisfies the DHCP-client and the QUIC rule at once: the
    first needs byte 0 to be 0x01, the second needs its high nibble to be
    0xc. *)
Lemma dhcp_and_quic_exclude (udp_data : list Z) :
  rule_matches udp_data dhcp_rule = true ->
  rule_matches udp_data quic_rule = false.
Proof.
  unfold rule_matches, dhcp_rule, quic_rule.
  cbn [rule_width rule_mask rule_value].
  unfold compare_masked_data_to_value.
  rewrite !result_bind.
  change (result (read_word udp_data 4 0)) with (word_at udp_data 4 0).
  unfold ret, result. cbn [snd].
  set (w := word_at udp_data 4 0).
  destruct (Z.land w (word_at dhcp_client_mask 4 0) =? _) eqn:E1; [|discriminate].
  intros _.
  destruct (Z.land w (word_at quic_mask 4 0) =? _) eqn:E2; [|reflexivity].
  exfalso. apply Z.eqb_eq in E1, E2.
  apply (f_equal (fun z => Z.testbit z 6)) in E2.
  apply (f_equal (fun z => Z.testbit z 6)) in E1.
  rewrite Z.land_spec in E1, E2.
  change (Z.testbit (word_at dhcp_client_mask 4 0) 6) with true in E1.
  change (Z.testbit (word_at dhcp_client_value 4 0) 6) with false in E1.
  change (Z.testbit (word_at quic_mask 4 0) 6) with true in E2.
  change (Z.testbit (word_at quic_value 4 0) 6) with true in E2.
  rewrite andb_true_r in E1, E2. congruence.
Qed.






(** C3 (failing input): on the 8-byte payload 16 fe f0 00 00 00 00 00 the
    length guard passes, the DHCP compare fails, and the 16-byte DTLS
    client-hello compare, whose first word agrees, goes on to read the
    bytes at offsets 8 to 15, past [udp_data + len]. *)
Theorem C3_dtls_compare_reads_past_len :
  let udp_data := [0x16; 0xfe; 0xf0; 0x00; 0x00; 0x00; 0x00; 0x00] in
  let len := 8 in
  In 8 (reads (udp_get_message_type udp_data len))
  /\ In 15 (reads (udp_get_message_type udp_data len))
  /\ ~ reads_in_bounds udp_data len.
Proof.
  cbv zeta.
  assert (H8 : In 8 (reads (udp_get_message_type
                              [0x16; 0xfe; 0xf0; 0x00; 0x00; 0x00; 0x00; 0x00] 8))).
  { vm_compute. tauto. }
  split; [exact H8|]. split; [vm_compute; tauto|].
  unfold reads_in_bounds. rewrite Forall_forall. intros H.
  specialize (H 8 H8). lia.
Qed.

End UdpFacts.

(** ** Cursor views *)

Section DatumFacts.

Lemma bytes_length buf a b :
  List.length (bytes buf (mk_datum (Some a) (Some b))) = Z.to_nat (b - a).
Proof. unfold bytes. cbn [data data_end]. now rewrite length_map, length_seq. Qed.

Lemma bytes_skip buf a b n :
  0 <= n <= b - a ->
  skip (mk_datum (Some a) (Some b)) n = mk_datum (Some (a + n)) (Some b)
  /\ bytes buf (mk_datum (Some (a + n)) (Some b)) =
       skipn (Z.to_nat n) (bytes buf (mk_datum (Some a) (Some b))).
Proof.
  intros Hn. split.
  - unfold skip, length. cbn [data data_end ptr_add].
    destruct (b - a <? n) eqn:E; [apply Z.ltb_lt in E; lia|reflexivity].
  - unfold bytes. cbn [data data_end].
    rewrite skipn_map, skipn_seq, (map_seq_from _ (0 + Z.to_nat n)).
    replace (Z.to_nat (b - a) - Z.to_nat n)%nat with (Z.to_nat (b - (a + n))) by lia.
    apply map_ext. intros i. f_equal. lia.
Qed.

End DatumFacts.

(** ** MySQL server greeting *)

Section MysqlFacts.
Import Mysql.

Lemma encoded_cursor buf w le pkt :
  snd (encoded buf w le pkt) = skip pkt w.
Proof.
  unfold encoded, parse, skip.
  destruct (length pkt <? w); reflexivity.
Qed.

Lemma parse_cursor pkt n : snd (parse pkt n) = skip pkt n.
Proof. unfold parse, skip. destruct (length pkt <? n); reflexivity. Qed.

Lemma skip_null n : skip null n = null.
Proof. unfold skip. now destruct (length null <? n). Qed.

Lemma skip_skip p n m :
  0 < n -> 0 < m -> skip (skip p n) m = skip p (n + m).
Proof.
  intros Hn Hm.
  destruct (length p <? n) eqn:E1.
  - assert (E2 : (length p <? n + m) = true)
      by (apply Z.ltb_lt in E1; apply Z.ltb_lt; lia).
    unfold skip at 2 3. rewrite E1, E2. apply skip_null.
  - unfold skip, length, set_null in *.
    destruct p as [[a|] [b|]]; cbn [data data_end ptr_add] in *;
      try (apply Z.ltb_ge in E1; lia).
    rewrite E1. cbn [data data_end ptr_add]. apply Z.ltb_ge in E1.
    destruct (b - (a + n) <? m) eqn:E3, (b - a <? n + m) eqn:E4;
      try reflexivity;
      try (apply Z.ltb_lt in E3); try (apply Z.ltb_ge in E3);
      try (apply Z.ltb_lt in E4); try (apply Z.ltb_ge in E4); try lia.
    now rewrite Z.add_assoc.
Qed.

(** One read of the member-initialiser list: name its value, and replace
    the cursor it leaves by the cursor it was given, advanced. *)
Ltac read_field :=
  let C := fresh "C" in
  let x := fresh "x" in
  let q := fresh "q" in
  match goal with
  | |- context [encoded ?b ?w ?le ?p] =>
      pose proof (encoded_cursor b w le p) as C;
      destruct (encoded b w le p) as [x q]
  | |- context [parse ?p ?n] =>
      pose proof (parse_cursor p n) as C;
      destruct (parse p n) as [x q]
  end;
  cbn [snd] in C; subst q; try rewrite skip_skip by lia.

(** The member initialisers after [version] take the 21 bytes of the
    thread id, salt_1, capability, collation, server-status,
    extended-capability and auth-plugin-length fields off the cursor (or
    null it), whatever [version] is. *)
Lemma member_init_after_version buf pkt l pn pr v pv :
  init_upto_version buf pkt = (l, pn, pr, v, pv) ->
  exists tid s1 cp col st ec apl,
    member_init buf pkt =
      (mk_greet l pn pr v tid s1 cp col st ec apl None None None None
         null true 0 null,
       skip pv 21).
Proof.
  intros H. unfold member_init, bind, parse_n, ret. rewrite H.
  do 7 read_field.
  now repeat eexists.
Qed.

(** C4 (amended): when the version string is shorter than 6 bytes or not
    NUL-terminated the record is invalid and the constructor body stops
    at once: the reserved bytes, the second salt and the auth-plugin name
    are not consumed, and the MariaDB field stays 0.  The thread id,
    salt_1, capability, collation, server-status, extended-capability and
    auth-plugin-length fields (21 bytes) have been taken off the cursor
    by the member initialisers, which run before the check. *)
Theorem C4_invalid_version_stops_body
    (buf : list Z) (pkt : datum) (l pn pr : Z) (v pv : datum) :
  init_upto_version buf pkt = (l, pn, pr, v, pv) ->
  length v < 6 \/ last_byte buf v <> 0 ->
  let g := fst (mysql_server_greet_ctor buf pkt) in
  is_not_empty g = false
  /\ version g = v
  /\ snd (mysql_server_greet_ctor buf pkt) =
       (if length pv <? 21 then null
        else mk_datum (ptr_add (data pv) 21) (data_end pv))
  /\ salt_2 g = null /\ auth_plugin g = null /\ mariadb_ext_cap g = 0.
Proof.
  intros Hinit Hv.
  destruct (member_init_after_version _ _ _ _ _ _ _ Hinit)
    as (tid & s1 & cp & col & st & ec & apl & Hm).
  unfold mysql_server_greet_ctor, bind. rewrite Hm.
  unfold ctor_body. cbn [version].
  assert (Hc : (length v <? 6) || negb (last_byte buf v =? 0) = true).
  { apply orb_true_iff. destruct Hv as [Hv|Hv].
    - left. now apply Z.ltb_lt.
    - right. apply negb_true_iff. now apply Z.eqb_neq. }
  rewrite Hc. cbn. repeat split; reflexivity.
Qed.

Lemma C4_invalid_version_stops_body_witness :
  let g := fst (greet greeting_short_version) in
  is_not_empty g = false
  /\ version g = mk_datum (Some 5) (Some 9)
  /\ snd (greet greeting_short_version) =
       (if length (mk_datum (Some 9) (Some 53)) <? 21 then null
        else mk_datum (ptr_add (Some 9) 21) (Some 53))
  /\ salt_2 g = null /\ auth_plugin g = null /\ mariadb_ext_cap g = 0.
Proof.
  refine (C4_invalid_version_stops_body greeting_short_version
            (whole greeting_short_version) 49 0 10
            (mk_datum (Some 5) (Some 9)) (mk_datum (Some 9) (Some 53)) _ _).
  - vm_compute. reflexivity.
  - left. vm_compute. reflexivity.
Defined.

(** C4 (as stated, refuted): the 4-byte version string 5.7 NUL ends at
    offset 9, the record is invalid, and the cursor the constructor leaves
    is at offset 30: the seven fields after the version string have been
    consumed. *)
Lemma C4_fields_after_version_consumed :
  length (version (fst (greet greeting_short_version))) < 6
  /\ is_not_empty (fst (greet greeting_short_version)) = false
  /\ ~ consumes_nothing_after_version greeting_short_version
         (whole greeting_short_version).
Proof.
  split; [vm_compute; reflexivity|]. split; [vm_compute; reflexivity|].
  unfold consumes_nothing_after_version. vm_compute. discriminate.
Qed.

(** C1 (failing input): in the MariaDB greeting the four bytes after the
    six reserved ones are 07 00 00 00, little-endian 7; the constructor
    classifies the server as MariaDB, accepts the record, and stores
    0x07000000: the field is decoded in the default, big-endian order. *)
Theorem C1_mariadb_ext_cap_read_big_endian :
  let g := fst (greet greeting_mariadb) in
  is_not_empty g = true
  /\ is_mariadb g = Some true
  /\ salt_2 g = mk_datum (Some (47 + 6 + 4)) (Some (47 + 6 + 4 + 13))
  /\ le_value_at greeting_mariadb (47 + 6) 4 = 7
  /\ mariadb_ext_cap g = 0x07000000.
Proof. vm_compute. repeat split; reflexivity. Qed.

(** For a MySQL classification the reserved skip is 10 bytes and the
    MariaDB field stays 0 (the spec's round-trip packet). *)
Example mysql57_reserved_skip :
  let g := fst (greet greeting_mysql57) in
  is_not_empty g = true
  /\ is_mariadb g = Some false
  /\ salt_2 g = mk_datum (Some (32 + 10)) (Some (32 + 10 + 13))
  /\ mariadb_ext_cap g = 0.
Proof. vm_compute. repeat split; reflexivity. Qed.

Lemma mysql_collations_length : List.length mysql_collations = 272%nat.
Proof. vm_compute. reflexivity. Qed.

(** The lookup is inside the table for every non-zero id byte: the table
    has 272 entries. *)
Lemma collation_lookup_in_bounds (g : mysql_server_greet) :
  1 <= collation g <= 255 ->
  array_get mysql_collations (collation_index g) <> None.
Proof.
  intros H. unfold array_get, collation_index.
  rewrite mysql_collations_length.
  destruct (0 <=? collation g - 1) eqn:E1; [|apply Z.leb_gt in E1; lia].
  destruct (collation g - 1 <? Z.of_nat 272) eqn:E2; [|apply Z.ltb_ge in E2; lia].
  cbn [andb]. rewrite nth_error_None, mysql_collations_length. lia.
Qed.

(** C2 (failing input): the greeting with collation id byte 0 is accepted;
    [write_json] indexes [mysql_collations] at 0 - 1 = -1 with no check
    before it, outside the array. *)
Theorem C2_collation_0_indexes_before_table :
  let g := fst (greet greeting_collation_0) in
  is_not_empty g = true
  /\ collation g = 0
  /\ collation_index g = -1
  /\ array_get mysql_collations (collation_index g) = None
  /\ write_json greeting_collation_0 g false = None
  /\ write_json greeting_collation_0 g true = None.
Proof. vm_compute. repeat split; reflexivity. Qed.

(** C5 (failing input): the greeting announces a 21-byte plugin name of
    which 5 bytes remain; reading the name nulls the cursor and the name,
    the remaining length of the nulled cursor is 0, and the record is
    reported not empty. *)
Theorem C5_truncated_auth_plugin_accepted :
  let g := fst (greet greeting_truncated_plugin) in
  auth_plugin_len g = 21
  /\ auth_plugin g = null
  /\ snd (greet greeting_truncated_plugin) = null
  /\ is_not_empty g = true.
Proof. vm_compute. repeat split; reflexivity. Qed.

(** Truncation inside the second salt, by contrast, is caught by the
    length check on [salt_2]. *)
Example truncated_salt_2_rejected :
  is_not_empty (fst (greet (firstn 50 greeting_mysql57))) = false.
Proof. vm_compute. reflexivity. Qed.

End MysqlFacts.

(** ** UDP classifier, byte by byte *)

Section UdpBytesFacts.
Import Udp UdpBytes.

Lemma byte_high_bits d n : is_byte d -> 8 <= n -> Z.testbit d n = false.
Proof.
  intros Hd Hn. destruct (Z.eq_dec d 0) as [->|Hz]; [apply Z.bits_0|].
  apply Z.bits_above_log2; [unfold is_byte in Hd; lia|].
  assert (Z.log2 d < 8) by (apply Z.log2_lt_pow2; unfold is_byte in Hd; lia).
  lia.
Qed.

Lemma testbit_cons_word d X n :
  is_byte d -> 0 <= n ->
  Z.testbit (Z.lor d (Z.shiftl X 8)) n =
    if n <? 8 then Z.testbit d n else Z.testbit X (n - 8).
Proof.
  intros Hd Hn. rewrite Z.lor_spec.
  destruct (n <? 8) eqn:E.
  - apply Z.ltb_lt in E. rewrite Z.shiftl_spec_low by lia. apply orb_false_r.
  - apply Z.ltb_ge in E. rewrite byte_high_bits by (assumption || lia).
    rewrite Z.shiftl_spec by lia. reflexivity.
Qed.

Lemma land_byte a b : is_byte a -> is_byte (Z.land a b).
Proof.
  intros Ha.
  assert (E : Z.land a b = Z.land a b mod 2 ^ 8).
  { rewrite <- Z.land_ones by lia. apply Z.bits_inj'. intros n Hn.
    rewrite !Z.land_spec.
    destruct (Z_lt_le_dec n 8) as [L|L].
    - rewrite Z.ones_spec_low by lia. now rewrite andb_true_r.
    - rewrite (byte_high_bits a n Ha L). reflexivity. }
  rewrite E. unfold is_byte. apply Z.mod_pos_bound. lia.
Qed.

Lemma word_of_bytes_nonneg bs : Forall is_byte bs -> 0 <= word_of_bytes bs.
Proof.
  induction 1 as [|b bs Hb _ IH]; cbn [word_of_bytes]; [lia|].
  apply Z.lor_nonneg. split; [unfold is_byte in Hb; lia|].
  apply Z.shiftl_nonneg. exact IH.
Qed.

(** The AND of two words is the word of the byte-wise ANDs. *)
Lemma land_word_of_bytes ds ms :
  Forall is_byte ds -> Forall is_byte ms -> List.length ds = List.length ms ->
  Z.land (word_of_bytes ds) (word_of_bytes ms) =
    word_of_bytes (map (fun p => Z.land (fst p) (snd p)) (combine ds ms)).
Proof.
  intros Hd. revert ms. induction Hd as [|d ds Hd _ IH]; intros ms Hm HL.
  - destruct ms; [reflexivity|discriminate].
  - destruct Hm as [|m ms Hm Hms]; [discriminate|].
    cbn [combine map word_of_bytes fst snd]. rewrite <- IH by (auto; now inversion HL).
    apply Z.bits_inj'. intros n Hn.
    rewrite Z.land_spec, !testbit_cons_word by (auto using land_byte).
    rewrite !Z.land_spec. now destruct (n <? 8).
Qed.

(** Words of byte strings of one length are equal only byte by byte. *)
Lemma word_of_bytes_eqb xs ys :
  Forall is_byte xs -> Forall is_byte ys -> List.length xs = List.length ys ->
  (word_of_bytes xs =? word_of_bytes ys) =
    forallb (fun p => fst p =? snd p) (combine xs ys).
Proof.
  intros Hx. revert ys. induction Hx as [|x xs Hx Hxs IH]; intros ys Hy HL.
  - destruct ys; [reflexivity|discriminate].
  - destruct Hy as [|y ys Hy Hys]; [discriminate|].
    cbn [combine forallb word_of_bytes fst snd].
    rewrite <- IH by (auto; now inversion HL).
    pose proof (word_of_bytes_nonneg xs Hxs) as Nx.
    pose proof (word_of_bytes_nonneg ys Hys) as Ny.
    assert (Hadd : forall b X, is_byte b -> 0 <= X ->
              Z.lor b (Z.shiftl X 8) = b + 256 * X).
    { intros b X Hb HX. rewrite <- Z.lxor_lor, <- Z.add_nocarry_lxor.
      - rewrite Z.shiftl_mul_pow2 by lia. lia.
      - apply Z.bits_inj'. intros n Hn. rewrite Z.land_spec, Z.bits_0.
        destruct (Z_lt_le_dec n 8) as [L|L].
        + rewrite Z.shiftl_spec_low by lia. apply andb_false_r.
        + now rewrite (byte_high_bits b n Hb L).
      - apply Z.bits_inj'. intros n Hn. rewrite Z.land_spec, Z.bits_0.
        destruct (Z_lt_le_dec n 8) as [L|L].
        + rewrite Z.shiftl_spec_low by lia. apply andb_false_r.
        + now rewrite (byte_high_bits b n Hb L). }
    rewrite !Hadd by assumption.
    unfold is_byte in Hx, Hy.
    destruct (Z.eqb_spec x y) as [E1|E1],
             (Z.eqb_spec (word_of_bytes xs) (word_of_bytes ys)) as [E2|E2];
      cbn [andb]; [apply Z.eqb_eq|apply Z.eqb_neq..]; lia.
Qed.

Lemma masked_eq_combine ds ms vs :
  List.length ds = List.length ms -> List.length ds = List.length vs ->
  forallb (fun p => fst p =? snd p)
    (combine (map (fun p => Z.land (fst p) (snd p)) (combine ds ms)) vs)
  = masked_eq ds ms vs.
Proof.
  revert ms vs. induction ds as [|d ds IH]; intros [|m ms] [|v vs] H1 H2;
    try discriminate; try reflexivity.
  cbn [combine map forallb masked_eq fst snd]. cbn [List.length] in H1, H2.
  rewrite IH by lia. reflexivity.
Qed.

(** One word of the comparison, byte by byte. *)
Lemma word_test_bytes ds ms vs :
  Forall is_byte ds -> Forall is_byte ms -> Forall is_byte vs ->
  List.length ds = List.length ms -> List.length ds = List.length vs ->
  (Z.land (word_of_bytes ds) (word_of_bytes ms) =? word_of_bytes vs)
  = masked_eq ds ms vs.
Proof.
  intros Hd Hm Hv L1 L2.
  rewrite land_word_of_bytes by assumption.
  rewrite word_of_bytes_eqb.
  - now apply masked_eq_combine.
  - rewrite Forall_map, Forall_forall. intros [a b] Hin. cbn [fst snd].
    apply land_byte. rewrite Forall_forall in Hd. apply Hd.
    now apply in_combine_l in Hin.
  - exact Hv.
  - rewrite length_map, length_combine. lia.
Qed.

Lemma load_is_byte d i : Forall is_byte d -> is_byte (load d i).
Proof. intros H. unfold load. now apply Forall_nth_byte. Qed.

Lemma at_is_byte d i : Forall is_byte d -> is_byte (at_ d i).
Proof. intros H. now apply Forall_nth_byte. Qed.

Lemma word_bytes_0 d w : map (load d) (offsets 0 w) = map (at_ d) (seq 0 w).
Proof.
  unfold offsets. rewrite map_map. apply map_ext. intros i.
  unfold load, at_. f_equal. lia.
Qed.

Lemma word_bytes_1 d w : map (load d) (offsets 1 w) = map (at_ d) (seq w w).
Proof.
  unfold offsets. rewrite map_map, (map_seq_from _ w). apply map_ext. intros i.
  unfold load, at_. f_equal. lia.
Qed.

Lemma land_255 d : is_byte d -> Z.land d 255 = d.
Proof.
  intros H. change 255 with (Z.ones 8). rewrite Z.land_ones by lia.
  apply Z.mod_small. exact H.
Qed.

(** The test on word [k] of a comparison, byte by byte. *)
Lemma word_at_test d m v w k :
  Forall is_byte d -> Forall is_byte m -> Forall is_byte v ->
  (Z.land (word_at d w k) (word_at m w k) =? word_at v w k)
  = masked_eq (map (load d) (offsets k w)) (map (load m) (offsets k w))
      (map (load v) (offsets k w)).
Proof.
  intros Hd Hm Hv. unfold word_at.
  assert (HB : forall x, Forall is_byte x ->
                 Forall is_byte (map (load x) (offsets k w))).
  { intros x Hx. rewrite Forall_map, Forall_forall. intros i _.
    now apply load_is_byte. }
  apply word_test_bytes; auto; now rewrite !length_map.
Qed.

Lemma compare_bytes w d m v :
  Forall is_byte d -> Forall is_byte m -> Forall is_byte v ->
  result (compare_masked_data_to_value w d m v) =
    masked_eq (map (at_ d) (seq 0 w)) (map (at_ m) (seq 0 w))
      (map (at_ v) (seq 0 w))
    && masked_eq (map (at_ d) (seq w w)) (map (at_ m) (seq w w))
         (map (at_ v) (seq w w)).
Proof.
  intros Hd Hm Hv. unfold compare_masked_data_to_value.
  rewrite !result_bind.
  unfold read_word, ret, result. cbn [snd].
  now rewrite !word_at_test, !word_bytes_0, !word_bytes_1 by assumption.
Qed.

Lemma masked_eq_app ds1 ms1 vs1 ds2 ms2 vs2 :
  List.length ds1 = List.length ms1 -> List.length ds1 = List.length vs1 ->
  masked_eq (ds1 ++ ds2) (ms1 ++ ms2) (vs1 ++ vs2) =
    masked_eq ds1 ms1 vs1 && masked_eq ds2 ms2 vs2.
Proof.
  revert ms1 vs1. induction ds1 as [|d ds1 IH]; intros [|m ms1] [|v vs1] H1 H2;
    try discriminate; [reflexivity|].
  cbn [app masked_eq]. cbn [List.length] in H1, H2.
  rewrite IH by lia. now rewrite andb_assoc.
Qed.

(** The comparison the classifier makes for a rule, on two machine words,
    is the mask/value test on each of the rule's [2 * width] bytes. *)
Theorem udp_compare_is_bytewise (udp_data : list Z) (r : rule) :
  Forall is_byte udp_data ->
  rule_tables_ok r ->
  rule_matches udp_data r = rule_bytes udp_data r.
Proof.
  intros Hd [Hm Hv]. unfold rule_matches, rule_bytes.
  rewrite compare_bytes by assumption.
  replace (2 * rule_width r)%nat with (rule_width r + rule_width r)%nat by lia.
  rewrite !seq_app, !map_app, masked_eq_app by now rewrite !length_map.
  reflexivity.
Qed.

Lemma udp_compare_is_bytewise_witness :
  rule_matches dhcp_stub dhcp_rule = rule_bytes dhcp_stub dhcp_rule.
Proof.
  apply udp_compare_is_bytewise.
  - repeat constructor; unfold is_byte; lia.
  - split; repeat constructor; unfold is_byte; lia.
Defined.

Lemma all_tables_bytes :
  Forall (Forall is_byte)
    [dhcp_client_mask; dhcp_client_value; dtls_client_hello_mask;
     dtls_client_hello_value; dtls_server_hello_mask; dtls_server_hello_value;
     dns_server_mask; dns_server_value; dns_client_mask; dns_client_value;
     wireguard_mask; wireguard_value; quic_mask; quic_value].
Proof. repeat constructor; unfold is_byte; lia. Qed.

Ltac table_bytes :=
  match goal with
  | |- Forall is_byte ?t =>
      let H := fresh in
      pose proof all_tables_bytes as H; rewrite Forall_forall in H;
      apply H; cbn; tauto
  end.

(** Evaluate the slices of the constant tables. *)
Ltac bytes_of_tables :=
  repeat match goal with
  | |- context [map (at_ ?m) (seq ?a ?n)] =>
      tryif is_var m then fail else
        (let x := eval vm_compute in (map (at_ m) (seq a n)) in
         change (map (at_ m) (seq a n)) with x)
  end.

(** Compare two conjunctions of byte tests on the payload. *)
Ltac byte_tests :=
  cbn [map seq masked_eq];
  repeat rewrite land_255 by (now apply at_is_byte);
  repeat rewrite Z.land_0_r;
  repeat match goal with
  | |- context [?x =? ?y] =>
      lazymatch x with
      | context [at_] => destruct (x =? y)
      end
  end; reflexivity.

Ltac rule_by_bytes H :=
  unfold rule_matches, dhcp_rule, quic_rule;
  cbn [rule_width rule_mask rule_value];
  rewrite compare_bytes by (exact H || table_bytes);
  bytes_of_tables;
  unfold starts4, dtls_prefix, dns_header, quic_prefix; byte_tests.

(** What each rule of the list tests, in bytes of the payload. *)
Lemma rules_by_bytes d :
  Forall is_byte d ->
  map (rule_matches d) udp_rules =
    [ starts4 d 0x01 0x01 0x06 0x00;
      dtls_prefix d && (at_ d 13 =? 0x01);
      dtls_prefix d && (at_ d 13 =? 0x02);
      dns_header d 0x81 0x80;
      dns_header d 0x01 0x00;
      starts4 d 0x01 0x00 0x00 0x00;
      quic_prefix d ].
Proof.
  intros H. unfold udp_rules. cbn [map].
  repeat (f_equal; [rule_by_bytes H|]). f_equal. rule_by_bytes H.
Qed.

(** The result as the chain of rule tests. *)
Lemma result_rule_chain d len :
  result (udp_get_message_type d len) =
    if len <? 8 then udp_msg_type_unknown else first_match udp_rules d.
Proof.
  unfold udp_get_message_type.
  change (sizeof dhcp_client_mask) with 8.
  destruct (len <? 8); [reflexivity|].
  unfold first_match, udp_rules, find, rule_matches, dhcp_rule, quic_rule.
  cbn [rule_width rule_mask rule_value rule_tag].
  unfold u32_compare_masked_data_to_value, u64_compare_masked_data_to_value.
  repeat (rewrite result_bind, result_if;
          match goal with
          | |- context [result (compare_masked_data_to_value ?w ?d ?m ?v)] =>
              destruct (result (compare_masked_data_to_value w d m v));
              [reflexivity|]
          end).
  reflexivity.
Qed.

(** The classification in bytes: with at least 8 bytes, 01 01 06 00 is
    DHCP; 16 fe f? with byte 13 equal to 1 or 2 is a DTLS client or server
    hello; flags 81 80 or 01 00 with bytes 4 and 6 zero is DNS; 01 00 00 00
    is WireGuard; c? ?? 00 00 is QUIC; anything else is unknown. *)
Theorem udp_classification_by_bytes (udp_data : list Z) (len : Z) :
  Forall is_byte udp_data ->
  result (udp_get_message_type udp_data len) = classify udp_data len.
Proof.
  intros H. rewrite result_rule_chain. unfold classify.
  destruct (len <? 8); [reflexivity|].
  pose proof (rules_by_bytes udp_data H) as T.
  unfold udp_rules in T. cbn [map] in T.
  injection T as T1 T2 T3 T4 T5 T6 T7.
  unfold first_match, udp_rules, find.
  rewrite T1, T2, T3, T4, T5, T6, T7.
  repeat match goal with
  | |- context [if ?b then _ else _] => destruct b; [reflexivity|]
  end.
  reflexivity.
Qed.

Lemma udp_classification_by_bytes_witness :
  result (udp_get_message_type dtls_stub 10) = classify dtls_stub 10.
Proof.
  apply udp_classification_by_bytes.
  repeat constructor; unfold is_byte; lia.
Defined.

Ltac name_bytes d :=
  repeat match goal with
  | H : context [at_ d ?k] |- _ =>
      let x := fresh "b" in set (x := at_ d k) in *; clearbody x
  end.

Ltac split_tests :=
  repeat match goal with
  | H : _ && _ = true |- _ => apply andb_prop in H; destruct H
  | H : (_ =? _) = true |- _ => apply Z.eqb_eq in H
  end.

(** No payload satisfies two rules of the list. *)
Lemma udp_rules_exclusive d r1 r2 :
  Forall is_byte d ->
  In r1 udp_rules -> In r2 udp_rules ->
  rule_matches d r1 = true -> rule_matches d r2 = true -> r1 = r2.
Proof.
  intros H I1 I2 M1 M2.
  pose proof (rules_by_bytes d H) as T.
  unfold udp_rules in T. cbn [map] in T.
  injection T as T1 T2 T3 T4 T5 T6 T7.
  unfold udp_rules in I1, I2. cbn [In] in I1, I2.
  repeat (destruct I1 as [I1|I1]; [|]); try contradiction; subst r1;
  repeat (destruct I2 as [I2|I2]; [|]); try contradiction; subst r2;
  try reflexivity; exfalso;
  repeat match goal with
  | T : rule_matches d ?r = _, M : rule_matches d ?r = true |- _ =>
      rewrite T in M
  end;
  clear T1 T2 T3 T4 T5 T6 T7;
  unfold starts4, dtls_prefix, dns_header, quic_prefix in M1, M2;
  split_tests; name_bytes d; subst; cbn in *; congruence.
Qed.

Lemma find_unique_perm {A} (f : A -> bool) (l l' : list A) :
  Permutation l l' ->
  (forall x y, In x l -> In y l -> f x = true -> f y = true -> x = y) ->
  find f l' = find f l.
Proof.
  intros P U.
  destruct (find f l) as [x|] eqn:E, (find f l') as [y|] eqn:E'.
  - apply find_some in E, E'. destruct E as [Ix Fx], E' as [Iy Fy].
    f_equal. apply U; auto. eapply Permutation_in; [symmetry; exact P|exact Iy].
  - apply find_some in E. destruct E as [Ix Fx].
    pose proof (find_none _ _ E' x (Permutation_in _ P Ix)). congruence.
  - apply find_some in E'. destruct E' as [Iy Fy].
    pose proof (find_none _ _ E y
                  (Permutation_in _ (Permutation_sym P) Iy)). congruence.
  - reflexivity.
Qed.

(** The order of the rules does not matter: at most one rule matches a
    payload, so trying the seven rules in any other order gives the tag
    [udp_get_message_type] returns. *)
Theorem udp_rule_order_irrelevant (udp_data : list Z) (len : Z) (rs : list rule) :
  Forall is_byte udp_data ->
  Permutation udp_rules rs ->
  8 <= len ->
  result (udp_get_message_type udp_data len) = first_match rs udp_data.
Proof.
  intros H P Hlen. rewrite result_rule_chain.
  apply Z.ltb_ge in Hlen. rewrite Hlen.
  unfold first_match.
  rewrite (find_unique_perm _ _ _ P); [reflexivity|].
  intros x y Ix Iy. now apply udp_rules_exclusive.
Qed.

Lemma udp_rule_order_irrelevant_witness :
  result (udp_get_message_type dhcp_stub 8) = first_match (rev udp_rules) dhcp_stub.
Proof.
  apply udp_rule_order_irrelevant.
  - repeat constructor; unfold is_byte; lia.
  - apply Permutation_rev.
  - lia.
Defined.






End UdpBytesFacts.

(** ** MySQL greeting: flags, invariants and serialisation *)

Section MysqlMoreFacts.
Import Mysql MysqlSpec.

Lemma array_get_nth (a : list string) (i : nat) :
  (i < List.length a)%nat ->
  array_get a (Z.of_nat i) = Some (nth i a EmptyString).
Proof.
  intros H. unfold array_get.
  destruct (0 <=? Z.of_nat i) eqn:E1; [|apply Z.leb_gt in E1; lia].
  destruct (Z.of_nat i <? Z.of_nat (List.length a)) eqn:E2;
    [|apply Z.ltb_ge in E2; lia].
  cbn [andb]. rewrite Nat2Z.id. now apply nth_error_nth'.
Qed.

Lemma array_get_past (a : list string) (i : nat) :
  (List.length a <= i)%nat -> array_get a (Z.of_nat i) = None.
Proof.
  intros H. unfold array_get.
  destruct (Z.of_nat i <? Z.of_nat (List.length a)) eqn:E2;
    [apply Z.ltb_lt in E2; lia|].
  now rewrite andb_false_r.
Qed.

(** The flag loop over any range of bit positions: it fails exactly when a
    set bit has no entry in the table, and otherwise appends the names of
    the set bits in order. *)
Lemma flag_loop (a : list string) (val : Z) (l : list nat) :
  forall acc,
    fold_left
      (fun acc i =>
         match acc with
         | None => None
         | Some names =>
             if Z.testbit val (Z.of_nat i) then
               match array_get a (Z.of_nat i) with
               | Some s => Some (names ++ [s])
               | None => None
               end
             else Some names
         end) l acc =
    match acc with
    | None => None
    | Some names =>
        if forallb (fun i => negb (Z.testbit val (Z.of_nat i))
                             || (i <? List.length a)%nat) l
        then Some (names ++ map (fun i => nth i a EmptyString)
                              (filter (fun i => Z.testbit val (Z.of_nat i)) l))
        else None
    end.
Proof.
  induction l as [|i l IH]; intros [names|]; cbn [fold_left forallb filter map].
  - now rewrite app_nil_r.
  - reflexivity.
  - rewrite IH. destruct (Z.testbit val (Z.of_nat i)) eqn:B; cbn [negb orb andb].
    + destruct (Nat.ltb_spec i (List.length a)) as [L|L].
      * rewrite array_get_nth by exact L. cbn [andb map].
        destruct (forallb _ l); [|reflexivity].
        now rewrite <- app_assoc.
      * now rewrite array_get_past by exact L.
    + reflexivity.
  - now rewrite IH.
Qed.

Lemma flag_names_full (a : list string) (val : Z) :
  (16 <= List.length a)%nat ->
  flag_names a val = Some (names_of a val).
Proof.
  intros H. unfold flag_names. rewrite flag_loop.
  assert (E : forallb (fun i => negb (Z.testbit val (Z.of_nat i))
                                || (i <? List.length a)%nat) (seq 0 16) = true).
  { apply forallb_forall. intros i Hi. apply in_seq in Hi.
    apply orb_true_iff. right. apply Nat.ltb_lt. lia. }
  rewrite E. reflexivity.
Qed.

(** With a table of 16 names or more the decoding of a bit-field never
    leaves the table, and lists the names of the set bits 0 to 15 in
    increasing bit order (the capability and extended-capability
    tables). *)
Theorem flag_names_of_full_table (a : list string) (val : Z) :
  (16 <= List.length a)%nat ->
  flag_names a val = Some (names_of a val).
Proof. exact (flag_names_full a val). Qed.

Lemma flag_names_of_full_table_witness :
  flag_names options 0x8001 = Some ["LONG_PASSWORD"; "SECURE_CONNECTION"]%string.
Proof.
  refine (flag_names_of_full_table options 0x8001 _).
  vm_compute. lia.
Defined.

Lemma server_status_json_none (status : Z) (output_metadata : bool) :
  server_status_write_json status output_metadata = None <->
  output_metadata = true /\ Z.testbit status 15 = true.
Proof.
  assert (F : flag_names server_status_str status = None <->
              Z.testbit status 15 = true).
  { unfold flag_names. rewrite flag_loop.
    change (seq 0 16) with (seq 0 15 ++ [15%nat]).
    rewrite forallb_app.
    assert (E : forallb (fun i => negb (Z.testbit status (Z.of_nat i))
                                  || (i <? List.length server_status_str)%nat)
                  (seq 0 15) = true).
    { apply forallb_forall. intros i Hi. apply in_seq in Hi.
      apply orb_true_iff. right. apply Nat.ltb_lt.
      change (List.length server_status_str) with 15%nat. lia. }
    rewrite E. cbn [forallb andb].
    change (List.length server_status_str) with 15%nat.
    change (15 <? 15)%nat with false. change (Z.of_nat 15) with 15.
    destruct (Z.testbit status 15); cbn [negb orb andb];
      split; congruence. }
  unfold server_status_write_json, flags_json, say, seqW.
  destruct output_metadata.
  - destruct (flag_names server_status_str status) as [names|].
    + split; [discriminate|]. intros [_ B]. apply F in B. discriminate.
    + split; [|reflexivity]. intros _. split; [reflexivity|]. now apply F.
  - unfold skipW. split; [discriminate|]. intros [? _]. discriminate.
Qed.

(** [server_status_str] has 15 entries and the loop runs to bit 15: with
    metadata requested, [server_status::write_json] reads entry 15, past
    the table, exactly when bit 15 of the status is set; without metadata
    it reads no table. *)
Theorem server_status_bit_15_leaves_table (status : Z) (output_metadata : bool) :
  server_status_write_json status output_metadata = None <->
  output_metadata = true /\ Z.testbit status 15 = true.
Proof. exact (server_status_json_none status output_metadata). Qed.

Ltac body_done E :=
  unfold ret in E; injection E as <- <-; cbn; try discriminate.

(** The one path through the constructor body that leaves [valid] set:
    both validity checks pass, the salt check passes and nothing is left
    in the cursor. *)
Lemma ctor_body_valid_path buf g0 p0 g p :
  ctor_body buf g0 p0 = (g, p) ->
  valid g = true ->
  let lt41 := ver_less_41 buf g0 in
  let mdb := mariadb_heuristic g0 in
  exists mext pa s2 pb ap,
    6 <= length (version g0)
    /\ last_byte buf (version g0) = 0
    /\ (maj_ver buf g0 <? 53) && (auth_plugin_len g0 >? 0) = false
    /\ (if mdb then encoded buf 4 false (skip p0 6)
        else (mariadb_ext_cap g0, skip p0 10)) = (mext, pa)
    /\ (if negb lt41 then parse pa 13 else (salt_2 g0, pa)) = (s2, pb)
    /\ (negb lt41 = true -> length s2 = 13 /\ last_byte buf s2 = 0)
    /\ (if auth_plugin_len g0 >? 0 then parse pb (auth_plugin_len g0 + 1)
        else (auth_plugin g0, pb)) = (ap, p)
    /\ length p = 0
    /\ g = set_tail (set_versions g0 (auth_plugin_len g0 >? 0) lt41)
             (negb lt41) mdb mext s2 (valid g0) ap.
Proof.
  intros E V. cbv zeta. unfold ver_less_41, mariadb_heuristic, maj_ver, min_ver.
  unfold ctor_body in E.
  destruct ((length (version g0) <? 6) || negb (last_byte buf (version g0) =? 0)) eqn:C1.
  { body_done E. }
  apply orb_false_iff in C1. destruct C1 as [C1 C1'].
  apply Z.ltb_ge in C1. apply negb_false_iff, Z.eqb_eq in C1'.
  cbn [version set_versions auth_plugin_len cap salt_2 mariadb_ext_cap
         auth_plugin valid] in E.
  destruct ((deref buf (data (version g0)) <? 53) && (auth_plugin_len g0 >? 0)) eqn:C2.
  { body_done E. }
  unfold bind, skip_n, parse_n, pkt_length in E.
  set (lt41 := (deref buf (data (version g0)) <? 52) || _) in *.
  set (mdb := (length (version g0) >? 9) || _) in *.
  match type of E with context [let '(_, _) := ?X in _] =>
    destruct X as [mext pa] eqn:EA end.
  match type of E with context [let '(_, _) := ?X in _] =>
    destruct X as [s2 pb] eqn:ES end.
  destruct (negb lt41 && _) eqn:C3.
  { body_done E. }
  match type of E with context [let '(_, _) := ?X in _] =>
    destruct X as [ap pc] eqn:EP end.
  destruct (negb (length pc =? 0)) eqn:C4.
  { body_done E. }
  unfold ret in E. injection E as <- <-.
  exists mext, pa, s2, pb, ap.
  apply negb_false_iff, Z.eqb_eq in C4.
  repeat match goal with |- _ /\ _ => split end;
    try assumption; try reflexivity.
  - destruct mdb; exact EA.
  - destruct (negb lt41); exact ES.
  - intros N. rewrite N in C3. cbn [andb] in C3.
    apply orb_false_iff in C3. destruct C3 as [C3 C3'].
    apply negb_false_iff, Z.eqb_eq in C3.
    apply negb_false_iff, Z.eqb_eq in C3'. now split.
  - destruct (auth_plugin_len g0 >? 0); exact EP.
Qed.

(** What a record that reports [is_not_empty] guarantees: a version
    string of at least 6 bytes ending in NUL; the four flags assigned,
    from the plugin length, the version characters and the MariaDB
    heuristic; no plugin length on a major version below '5'; a second
    salt of 13 bytes ending in NUL when one is expected; and nothing left
    in the cursor. *)
Theorem mysql_valid_record_invariants (buf : list Z) (pkt : datum) :
  let g := fst (mysql_server_greet_ctor buf pkt) in
  let pkt' := snd (mysql_server_greet_ctor buf pkt) in
  is_not_empty g = true ->
  6 <= length (version g) /\ last_byte buf (version g) = 0
  /\ if_auth_plugin g = Some (auth_plugin_len g >? 0)
  /\ is_ver_less_41 g = Some (ver_less_41 buf g)
  /\ partial_salt g = Some (negb (ver_less_41 buf g))
  /\ is_mariadb g = Some (mariadb_heuristic g)
  /\ (maj_ver buf g <? 53) && (auth_plugin_len g >? 0) = false
  /\ (partial_salt g = Some true ->
      length (salt_2 g) = 13 /\ last_byte buf (salt_2 g) = 0)
  /\ length pkt' = 0.
Proof.
  cbv zeta. unfold mysql_server_greet_ctor, bind, is_not_empty.
  destruct (member_init buf pkt) as [g0 p0].
  destruct (ctor_body buf g0 p0) as [g p] eqn:E. cbn [fst snd]. intros V.
  destruct (ctor_body_valid_path _ _ _ _ _ E V)
    as (mext & pa & s2 & pb & ap & H1 & H2 & H3 & _ & _ & H6 & _ & H8 & ->).
  unfold ver_less_41, maj_ver, min_ver, mariadb_heuristic in *.
  cbn [version cap auth_plugin_len if_auth_plugin is_ver_less_41 partial_salt
         is_mariadb salt_2 set_tail set_versions].
  repeat match goal with |- _ /\ _ => split end;
    try assumption; try reflexivity.
  intros N. injection N as N. now apply H6.
Qed.

Lemma mysql_valid_record_invariants_witness :
  let g := fst (greet greeting_mysql57) in
  6 <= length (version g) /\ last_byte greeting_mysql57 (version g) = 0
  /\ if_auth_plugin g = Some (auth_plugin_len g >? 0)
  /\ is_ver_less_41 g = Some (ver_less_41 greeting_mysql57 g)
  /\ partial_salt g = Some (negb (ver_less_41 greeting_mysql57 g))
  /\ is_mariadb g = Some (mariadb_heuristic g)
  /\ (maj_ver greeting_mysql57 g <? 53) && (auth_plugin_len g >? 0) = false
  /\ (partial_salt g = Some true ->
      length (salt_2 g) = 13 /\ last_byte greeting_mysql57 (salt_2 g) = 0)
  /\ length (snd (greet greeting_mysql57)) = 0.
Proof.
  refine (mysql_valid_record_invariants greeting_mysql57
            (whole greeting_mysql57) _).
  vm_compute. reflexivity.
Defined.

Lemma parse_ok r n s r' :
  parse r n = (s, r') -> length s = n -> 0 < n ->
  exists a b,
    r = mk_datum (Some a) (Some b) /\ n <= b - a
    /\ s = mk_datum (Some a) (Some (a + n))
    /\ r' = mk_datum (Some (a + n)) (Some b).
Proof.
  unfold parse. intros E L Hn.
  destruct (length r <? n) eqn:C.
  - injection E as <- <-. cbn in L. lia.
  - apply Z.ltb_ge in C. injection E as <- <-.
    destruct r as [[a|] [b|]]; unfold length in C; cbn [data data_end] in C;
      try lia.
    exists a, b. cbn. repeat split; [lia|reflexivity..].
Qed.

Lemma skip_ok d n x y :
  skip d n = mk_datum (Some x) (Some y) ->
  exists a, d = mk_datum (Some a) (Some y) /\ x = a + n.
Proof.
  unfold skip. destruct (length d <? n); [discriminate|].
  destruct d as [[a|] [b|]]; cbn; intros E; try discriminate.
  injection E as <- <-. now exists a.
Qed.

Lemma second_salt_shape (buf : list Z) (pkt : datum) :
  let g := fst (mysql_server_greet_ctor buf pkt) in
  let p0 := snd (member_init buf pkt) in
  is_not_empty g = true ->
  partial_salt g = Some true ->
  exists a,
    data p0 = Some a
    /\ salt_2 g = mk_datum (Some (a + 10)) (Some (a + 23))
    /\ mariadb_ext_cap g =
         if mariadb_heuristic g
         then be_value (bytes buf (mk_datum (Some (a + 6)) (Some (a + 10))))
         else 0.
Proof.
  cbv zeta. unfold mysql_server_greet_ctor, bind, is_not_empty.
  destruct (init_upto_version buf pkt) as [[[[l pn] pr] v] pv] eqn:EI.
  destruct (member_init_after_version _ _ _ _ _ _ _ EI)
    as (tid & s1 & cp & col & st & ec & apl & EM).
  rewrite EM. cbn [snd]. set (p0 := skip pv 21). clearbody p0.
  match goal with |- context [ctor_body buf ?r p0] => set (g0 := r) end.
  destruct (ctor_body buf g0 p0) as [g p] eqn:E. cbn [fst]. intros V PS.
  destruct (ctor_body_valid_path _ _ _ _ _ E V)
    as (mext & pa & s2 & pb & ap & _ & _ & _ & EA & ES & H6 & _ & _ & ->).
  cbn [partial_salt set_tail] in PS. injection PS as PS.
  rewrite PS in ES. destruct (H6 PS) as [L13 _].
  destruct (parse_ok _ _ _ _ ES L13 ltac:(lia)) as (x & y & -> & _ & -> & _).
  unfold mariadb_heuristic in *.
  cbn [salt_2 mariadb_ext_cap set_tail version cap set_versions].
  change (version g0) with v in *. change (cap g0) with cp in *.
  change (mariadb_ext_cap g0) with 0 in EA.
  destruct ((length v >? 9) || negb (Z.testbit cp 0)).
  - unfold encoded in EA.
    destruct (length (skip p0 6) <? 4); [discriminate|].
    destruct (parse (skip p0 6) 4) as [field q] eqn:EF.
    injection EA as <- ->.
    unfold parse in EF.
    destruct (length (skip p0 6) <? 4); [discriminate|].
    injection EF as <- EQ EQ'.
    destruct (skip p0 6) as [[c|] e] eqn:ES6; cbn [data data_end ptr_add] in *;
      [|discriminate].
    injection EQ as <-. subst e.
    destruct (skip_ok _ _ _ _ ES6) as (a & -> & ->).
    exists a. cbn [data ptr_add].
    repeat match goal with |- _ /\ _ => split end.
    + reflexivity.
    + f_equal; f_equal; lia.
    + do 3 f_equal. f_equal. lia.
  - injection EA as <- EQ.
    destruct (skip_ok _ _ _ _ EQ) as (a & -> & ->).
    exists a. cbn [data].
    repeat match goal with |- _ /\ _ => split end; try reflexivity.
    f_equal; f_equal; lia.
Qed.

(** In an accepted record that carries a second salt, the salt occupies
    the 13 bytes that start 10 bytes after the auth-plugin-length field,
    whichever way the server is classified: MySQL skips 10 reserved bytes;
    MariaDB skips 6 and takes 4, which it stores as the big-endian value of
    those bytes.  For MySQL the MariaDB field is 0. *)
Theorem mysql_second_salt_layout (buf : list Z) (pkt : datum) :
  let g := fst (mysql_server_greet_ctor buf pkt) in
  let p0 := snd (member_init buf pkt) in
  is_not_empty g = true ->
  partial_salt g = Some true ->
  exists a,
    data p0 = Some a
    /\ salt_2 g = mk_datum (Some (a + 10)) (Some (a + 23))
    /\ mariadb_ext_cap g =
         if mariadb_heuristic g
         then be_value (bytes buf (mk_datum (Some (a + 6)) (Some (a + 10))))
         else 0.
Proof. exact (second_salt_shape buf pkt). Qed.

Lemma mysql_second_salt_layout_witness :
  let g := fst (greet greeting_mariadb) in
  exists a,
    data (snd (member_init greeting_mariadb (whole greeting_mariadb))) = Some a
    /\ salt_2 g = mk_datum (Some (a + 10)) (Some (a + 23))
    /\ mariadb_ext_cap g =
         if mariadb_heuristic g
         then be_value (bytes greeting_mariadb
                          (mk_datum (Some (a + 6)) (Some (a + 10))))
         else 0.
Proof.
  refine (mysql_second_salt_layout greeting_mariadb (whole greeting_mariadb) _ _).
  - vm_compute. reflexivity.
  - vm_compute. reflexivity.
Defined.

Lemma seqW_None (a b : W) : seqW a b = None <-> a = None \/ b = None.
Proof.
  unfold seqW. destruct a, b; split; try tauto; try discriminate;
    intros [?|?]; discriminate.
Qed.

Lemma capabilities_json_some val md : capabilities_write_json val md <> None.
Proof.
  unfold capabilities_write_json, flags_json. rewrite seqW_None.
  intros [?|E]; [discriminate|].
  destruct md; [|discriminate].
  rewrite flag_names_full in E by (vm_compute; lia). discriminate.
Qed.

Lemma extended_capabilities_json_some val md :
  extended_capabilities_write_json val md <> None.
Proof.
  unfold extended_capabilities_write_json, flags_json. rewrite seqW_None.
  intros [?|E]; [discriminate|].
  destruct md; [|discriminate].
  rewrite flag_names_full in E by (vm_compute; lia). discriminate.
Qed.

Lemma encoded_1_byte buf p :
  Forall is_byte buf -> is_byte (fst (encoded buf 1 false p)).
Proof.
  intros H. unfold encoded.
  destruct (length p <? 1) eqn:C; [cbn; unfold is_byte; lia|].
  apply Z.ltb_ge in C. unfold parse.
  destruct (length p <? 1) eqn:C'; [apply Z.ltb_lt in C'; lia|].
  destruct p as [[a|] [b|]]; unfold length in C; cbn [data data_end] in C;
    try lia.
  cbn [fst data ptr_add]. unfold bytes. cbn [data data_end].
  replace (Z.to_nat (a + 1 - a)) with 1%nat by lia.
  cbn. now apply load_is_byte.
Qed.

Lemma member_init_collation_byte buf pkt :
  Forall is_byte buf -> is_byte (collation (fst (member_init buf pkt))).
Proof.
  intros H. unfold member_init, bind, parse_n, ret.
  destruct (init_upto_version buf pkt) as [[[[l pn] pr] v] pv].
  destruct (encoded buf 4 true pv) as [tid p1].
  destruct (parse p1 9) as [s1 p2].
  destruct (encoded buf 2 true p2) as [cp p3].
  pose proof (encoded_1_byte buf p3 H) as B.
  destruct (encoded buf 1 false p3) as [col p4].
  destruct (encoded buf 2 true p4) as [st p5].
  destruct (encoded buf 2 true p5) as [ec p6].
  destruct (encoded buf 1 false p6) as [apl p7].
  exact B.
Qed.

Lemma collation_lookup_none (c : Z) :
  is_byte c -> (array_get mysql_collations (c - 1) = None <-> c = 0).
Proof.
  intros B. unfold is_byte in B. split.
  - intros E. destruct (Z.eq_dec c 0) as [|N]; [assumption|exfalso].
    revert E. unfold array_get. rewrite mysql_collations_length.
    destruct (0 <=? c - 1) eqn:E1; [|apply Z.leb_gt in E1; lia].
    destruct (c - 1 <? Z.of_nat 272) eqn:E2; [|apply Z.ltb_ge in E2; lia].
    cbn [andb]. rewrite nth_error_None, mysql_collations_length. lia.
  - intros ->. reflexivity.
Qed.

(** Serialising a record built from a packet of bytes: a record that is
    not valid emits nothing; a valid one reads outside a constant table in
    exactly two cases, a collation id of 0 (index -1 of
    [mysql_collations]), or metadata requested with bit 15 of the server
    status set (entry 15 of the 15-entry [server_status_str]).  In every
    other case all lookups are inside their tables and no unassigned flag
    is read. *)
Theorem mysql_write_json_out_of_bounds_iff
    (buf : list Z) (pkt : datum) (output_metadata : bool) :
  Forall is_byte buf ->
  let g := fst (mysql_server_greet_ctor buf pkt) in
  (is_not_empty g = false -> write_json buf g output_metadata = Some [])
  /\ (is_not_empty g = true ->
      (write_json buf g output_metadata = None <->
       collation g = 0
       \/ (output_metadata = true /\ Z.testbit (srv_status g) 15 = true))).
Proof.
  intros HB. cbv zeta. unfold is_not_empty. split.
  { intros V. unfold write_json. now rewrite V. }
  pose proof (member_init_collation_byte buf pkt HB) as CB.
  unfold mysql_server_greet_ctor, bind in *.
  destruct (member_init buf pkt) as [g0 p0]. cbn [fst] in CB.
  destruct (ctor_body buf g0 p0) as [g p] eqn:E. cbn [fst]. intros V.
  destruct (ctor_body_valid_path _ _ _ _ _ E V)
    as (mext & pa & s2 & pb & ap & _ & _ & _ & _ & _ & _ & _ & _ & EG).
  assert (Ecol : collation g = collation g0) by (now rewrite EG).
  assert (Eps : exists b, partial_salt g = Some b) by (rewrite EG; now eexists).
  assert (Emd : exists b, is_mariadb g = Some b) by (rewrite EG; now eexists).
  clear EG E. destruct Eps as [ps Eps], Emd as [mdb Emd].
  unfold write_json. rewrite V, Eps, Emd. cbn [negb flag].
  unfold collation_index. rewrite Ecol.
  rewrite !seqW_None.
  rewrite <- (collation_lookup_none _ CB), <- server_status_json_none.
  split.
  - intros [F|[F|[F|[F|[F|[F|[F|[F|[F|[F|F]]]]]]]]]]; try discriminate.
    + destruct output_metadata; discriminate.
    + destruct ps; discriminate.
    + now apply capabilities_json_some in F.
    + left. now destruct (array_get _ _).
    + now right.
    + now apply extended_capabilities_json_some in F.
    + destruct (auth_plugin_len g =? 0); discriminate.
    + destruct mdb; discriminate.
  - intros [F|F].
    + do 5 right. left. now rewrite F.
    + do 6 right. now left.
Qed.

Lemma mysql_write_json_out_of_bounds_iff_witness :
  write_json greeting_collation_0 (fst (greet greeting_collation_0)) false = None.
Proof.
  refine (proj2 (proj2 (mysql_write_json_out_of_bounds_iff
            greeting_collation_0 (whole greeting_collation_0) false _) _) _).
  - repeat constructor; unfold is_byte; lia.
  - vm_compute. reflexivity.
  - left. vm_compute. reflexivity.
Defined.

Lemma find_delim_spec buf d delim :
  let off := find_delim buf d delim in
  let bs := bytes buf d in
  (off = -1 /\ ~ In delim bs)
  \/ (0 <= off < Z.of_nat (List.length bs)
      /\ nth (Z.to_nat off) bs 0 = delim
      /\ ~ In delim (firstn (Z.to_nat off) bs)).
Proof.
  cbv zeta. unfold find_delim. generalize (bytes buf d). intros bs.
  set (scan := fix scan (bs : list Z) (off : Z) {struct bs} : Z :=
                 match bs with
                 | [] => -1
                 | b :: bs' => if b =? delim then off else scan bs' (off + 1)
                 end).
  assert (G : forall bs k, 0 <= k ->
            (scan bs k = -1 /\ ~ In delim bs)
            \/ (k <= scan bs k < k + Z.of_nat (List.length bs)
                /\ nth (Z.to_nat (scan bs k - k)) bs 0 = delim
                /\ ~ In delim (firstn (Z.to_nat (scan bs k - k)) bs))).
  { clear bs. induction bs as [|b bs IH]; intros k Hk; cbn [scan].
    - left. split; [reflexivity|intros []].
    - fold scan. destruct (Z.eqb_spec b delim) as [->|N].
      + right. rewrite Z.sub_diag. cbn. split; [lia|]. split; [reflexivity|tauto].
      + destruct (IH (k + 1) ltac:(lia)) as [[E NI]|(R & Hn & NI)].
        * left. split; [exact E|]. intros [?|?]; [congruence|tauto].
        * right. cbn [List.length]. split; [lia|].
          replace (Z.to_nat (scan bs (k + 1) - k))
            with (S (Z.to_nat (scan bs (k + 1) - (k + 1)))) by lia.
          cbn [nth firstn]. split; [exact Hn|].
          intros [?|?]; [congruence|tauto]. }
  specialize (G bs 0 ltac:(lia)).
  rewrite Z.sub_0_r, Z.add_0_l in G. exact G.
Qed.

Lemma bytes_nth buf a b i :
  (i < Z.to_nat (b - a))%nat ->
  nth i (bytes buf (mk_datum (Some a) (Some b))) 0 = load buf (a + Z.of_nat i).
Proof.
  intros H. unfold bytes. cbn [data data_end].
  rewrite (nth_indep _ 0 (load buf (a + Z.of_nat 0)))
    by (rewrite length_map, length_seq; exact H).
  rewrite (map_nth (fun i => load buf (a + Z.of_nat i))), seq_nth by exact H.
  reflexivity.
Qed.

(** What the initialiser of [version] cuts off the cursor. *)
Lemma read_version_terminated buf p v p' :
  read_version buf p = (v, p') ->
  data v <> None ->
  1 <= length v /\ last_byte buf v = 0
  /\ ~ In 0 (removelast (bytes buf v))
  /\ p' = skip p (length v).
Proof.
  unfold read_version. intros E NN.
  pose proof (find_delim_spec buf p 0) as F. cbv zeta in F.
  destruct (find_delim buf p 0 <? 0) eqn:C.
  { injection E as <- <-. now cbn in NN. }
  apply Z.ltb_ge in C.
  destruct F as [[F _]|(R & Hn & NI)]; [lia|].
  set (off := find_delim buf p 0) in *.
  destruct p as [[a|] [b|]]; try (cbn in R; lia).
  rewrite bytes_length in R.
  injection E as <- <-. cbn [data ptr_add].
  unfold length, last_byte. cbn [data data_end ptr_add deref].
  replace (a + (off + 1) - a) with (off + 1) by lia.
  repeat match goal with |- _ /\ _ => split end.
  - lia.
  - rewrite bytes_nth in Hn by lia.
    rewrite Z2Nat.id in Hn by lia.
    now replace (a + (off + 1) + -1) with (a + off) by lia.
  - intros I. apply NI. clear NI Hn.
    unfold bytes in *. cbn [data data_end] in *.
    replace (Z.to_nat (a + (off + 1) - a)) with (Z.to_nat off + 1)%nat in I by lia.
    rewrite seq_app, map_app in I. cbn [seq map] in I.
    rewrite removelast_last in I.
    replace (Z.to_nat (b - a))
      with (Z.to_nat off + (Z.to_nat (b - a) - Z.to_nat off))%nat by lia.
    rewrite seq_app, map_app, firstn_app, length_map, length_seq.
    rewrite Nat.sub_diag, firstn_O, app_nil_r.
    rewrite firstn_all2 by (rewrite length_map, length_seq; lia).
    exact I.
  - reflexivity.
Qed.

(** The constructor body leaves the fields of the member initialisers as
    they are. *)
Lemma ctor_body_keeps buf g0 p0 :
  let g := fst (ctor_body buf g0 p0) in
  version g = version g0 /\ salt_1 g = salt_1 g0
  /\ collation g = collation g0 /\ auth_plugin_len g = auth_plugin_len g0.
Proof.
  cbv zeta. destruct (ctor_body buf g0 p0) as [g p] eqn:E. cbn [fst].
  unfold ctor_body, bind, ret, skip_n, parse_n, pkt_length in E.
  repeat (cbv beta in E;
          first
            [ injection E as <- <-; now cbn
            | match type of E with context [let '(_, _) := ?X in _] =>
                destruct X as [? ?] end
            | match type of E with context [if ?c then _ else _] =>
                destruct c end ]).
Qed.

Ltac read_value :=
  let EX := fresh "EX" in
  let x := fresh "x" in
  let q := fresh "q" in
  match goal with
  | |- context [let '(_, _) := ?X in _] =>
      destruct X as [x q] eqn:EX;
      let Hx := fresh in let Hq := fresh in
      pose proof (f_equal fst EX) as Hx; pose proof (f_equal snd EX) as Hq;
      cbn [fst snd] in Hx, Hq;
      rewrite ?encoded_cursor, ?parse_cursor in Hq;
      clear EX; subst x q; try rewrite skip_skip by lia
  end.

(** The salt and the cursor the member initialisers leave. *)
Lemma member_init_salt_1 buf pkt l pn pr v pv :
  init_upto_version buf pkt = (l, pn, pr, v, pv) ->
  version (fst (member_init buf pkt)) = v
  /\ salt_1 (fst (member_init buf pkt)) = fst (parse (skip pv 4) 9)
  /\ snd (member_init buf pkt) = skip pv 21.
Proof.
  intros H. unfold member_init, bind, parse_n, ret. rewrite H.
  do 7 read_value. cbn. repeat split.
Qed.

Lemma init_upto_version_reads buf pkt l pn pr v pv :
  init_upto_version buf pkt = (l, pn, pr, v, pv) ->
  exists p, read_version buf p = (v, pv).
Proof.
  unfold init_upto_version, bind, ret. intros E.
  do 5 (match type of E with context [let '(_, _) := ?X in _] =>
          destruct X as [? ?] end).
  match type of E with context [let '(_, _) := ?X in _] =>
    destruct X as [v' q] eqn:ER end.
  injection E as _ _ _ <- <-. eauto.
Qed.

(** The version string of any record is NUL-terminated by construction:
    when it is not null it ends with the first NUL of the cursor and holds
    no other.  So the first check of the constructor body only ever
    rejects on the length: the NUL test beside it never decides. *)
Theorem mysql_version_terminated_by_construction (buf : list Z) (pkt : datum) :
  let g := fst (mysql_server_greet_ctor buf pkt) in
  (data (version g) <> None ->
   1 <= length (version g) /\ last_byte buf (version g) = 0
   /\ ~ In 0 (removelast (bytes buf (version g))))
  /\ (length (version g) <? 6) || negb (last_byte buf (version g) =? 0)
     = (length (version g) <? 6).
Proof.
  cbv zeta.
  assert (G : data (version (fst (mysql_server_greet_ctor buf pkt))) <> None ->
              1 <= length (version (fst (mysql_server_greet_ctor buf pkt)))
              /\ last_byte buf (version (fst (mysql_server_greet_ctor buf pkt))) = 0
              /\ ~ In 0 (removelast (bytes buf
                     (version (fst (mysql_server_greet_ctor buf pkt)))))).
  { unfold mysql_server_greet_ctor, bind.
    destruct (init_upto_version buf pkt) as [[[[l pn] pr] v] pv] eqn:EI.
    destruct (member_init_salt_1 _ _ _ _ _ _ _ EI) as (EV & _ & _).
    destruct (member_init buf pkt) as [g0 p0]. cbn [fst] in EV.
    destruct (ctor_body_keeps buf g0 p0) as (KV & _).
    rewrite KV, EV. intros NN.
    destruct (init_upto_version_reads _ _ _ _ _ _ _ EI) as [p ER].
    destruct (read_version_terminated _ _ _ _ ER NN) as (A & B & C & _).
    auto. }
  split; [exact G|].
  destruct (data (version (fst (mysql_server_greet_ctor buf pkt)))) eqn:D.
  - destruct G as (_ & -> & _); [congruence|]. cbn. apply orb_false_r.
  - unfold length. rewrite D. reflexivity.
Qed.

Lemma mysql_version_terminated_by_construction_witness :
  let g := fst (greet greeting_mysql57) in
  1 <= length (version g) /\ last_byte greeting_mysql57 (version g) = 0
  /\ ~ In 0 (removelast (bytes greeting_mysql57 (version g))).
Proof.
  refine (proj1 (mysql_version_terminated_by_construction greeting_mysql57
                   (whole greeting_mysql57)) _).
  vm_compute. discriminate.
Defined.

(** In an accepted record that carries a second salt the first salt has
    its 9 bytes and the second its 13: the lengths [write_json] copies
    into its 32-byte buffer, [length - 1] of each, are 8 and 12. *)
Theorem mysql_salt_copy_lengths (buf : list Z) (pkt : datum) :
  let g := fst (mysql_server_greet_ctor buf pkt) in
  is_not_empty g = true ->
  partial_salt g = Some true ->
  length (salt_1 g) - 1 = 8 /\ length (salt_2 g) - 1 = 12
  /\ List.length (without_terminator buf (salt_1 g)
                    ++ without_terminator buf (salt_2 g)) = 20%nat.
Proof.
  cbv zeta. intros V PS.
  destruct (second_salt_shape buf pkt V PS) as (a & D & S2 & _).
  revert V PS S2. unfold mysql_server_greet_ctor, bind, is_not_empty.
  destruct (init_upto_version buf pkt) as [[[[l pn] pr] v] pv] eqn:EI.
  destruct (member_init_salt_1 _ _ _ _ _ _ _ EI) as (_ & ES1 & EP).
  destruct (member_init buf pkt) as [g0 p0]. cbn [fst snd] in *.
  destruct (ctor_body_keeps buf g0 p0) as (_ & KS & _).
  intros _ _ S2. rewrite KS, ES1, S2. clear KS ES1 S2.
  subst p0. unfold skip in D.
  destruct (length pv <? 21) eqn:C; [discriminate|]. apply Z.ltb_ge in C.
  destruct pv as [[x|] [y|]]; unfold length in C; cbn [data data_end] in C;
    try lia.
  assert (E4 : skip (mk_datum (Some x) (Some y)) 4 = mk_datum (Some (x + 4)) (Some y)).
  { unfold skip, length. cbn [data data_end ptr_add].
    destruct (y - x <? 4) eqn:C4; [apply Z.ltb_lt in C4; lia|reflexivity]. }
  rewrite E4. unfold parse, length. cbn [data data_end ptr_add].
  destruct (y - (x + 4) <? 9) eqn:C9; [apply Z.ltb_lt in C9; lia|].
  cbn [fst data data_end].
  unfold without_terminator.
  rewrite length_app, !removelast_firstn_len, !length_firstn, !bytes_length.
  repeat split; lia.
Qed.

Lemma mysql_salt_copy_lengths_witness :
  let g := fst (greet greeting_mysql57) in
  length (salt_1 g) - 1 = 8 /\ length (salt_2 g) - 1 = 12
  /\ List.length (without_terminator greeting_mysql57 (salt_1 g)
                    ++ without_terminator greeting_mysql57 (salt_2 g)) = 20%nat.
Proof.
  refine (mysql_salt_copy_lengths greeting_mysql57 (whole greeting_mysql57) _ _).
  - vm_compute. reflexivity.
  - vm_compute. reflexivity.
Defined.

(** *** The header bytes are never checked *)

Lemma bytes_agree b1 b2 d :
  agree_from_5 b1 b2 -> past_header d -> bytes b1 d = bytes b2 d.
Proof.
  intros A P. unfold bytes.
  destruct (data d) as [a|] eqn:D; [|reflexivity].
  destruct (data_end d); [|reflexivity].
  apply map_ext. intros i. apply A. specialize (P a D). lia.
Qed.

Lemma skip_past_header d n : 0 <= n -> past_header d -> past_header (skip d n).
Proof.
  intros Hn P. unfold skip.
  destruct (length d <? n); [intros a; discriminate|].
  intros a. cbn [data]. destruct (data d) as [x|] eqn:D; [|discriminate].
  cbn. intros E. injection E as <-. specialize (P x D). lia.
Qed.

Lemma encoded_agree b1 b2 w le p :
  agree_from_5 b1 b2 -> past_header p ->
  encoded b1 w le p = encoded b2 w le p.
Proof.
  intros A P. unfold encoded.
  destruct (length p <? w); [reflexivity|].
  unfold parse. destruct (length p <? w); [reflexivity|].
  rewrite (bytes_agree b1 b2); [reflexivity|exact A|exact P].
Qed.

Lemma last_byte_agree b1 b2 d :
  agree_from_5 b1 b2 -> ends_past_header d -> last_byte b1 d = last_byte b2 d.
Proof.
  intros A E. unfold last_byte.
  destruct (data_end d) as [e|] eqn:D; [|reflexivity].
  cbn. apply A. specialize (E e D). lia.
Qed.

Lemma deref_agree b1 b2 d n :
  agree_from_5 b1 b2 -> past_header d -> 0 <= n ->
  deref b1 (ptr_add (data d) n) = deref b2 (ptr_add (data d) n).
Proof.
  intros A P Hn. destruct (data d) as [a|] eqn:D; [|reflexivity].
  cbn. apply A. specialize (P a D). lia.
Qed.

Lemma parse_ends_past_header p n :
  1 <= n -> past_header p ->
  past_header (fst (parse p n)) /\ ends_past_header (fst (parse p n)).
Proof.
  intros Hn P. unfold parse.
  destruct (length p <? n); cbn [fst]; [split; intros a; discriminate|].
  split; intros a; cbn [data data_end].
  - apply P.
  - destruct (data p) as [x|] eqn:D; [|discriminate].
    cbn. intros E. injection E as <-. specialize (P x D). lia.
Qed.

Lemma read_version_agree b1 b2 p :
  agree_from_5 b1 b2 -> past_header p ->
  read_version b1 p = read_version b2 p
  /\ past_header (fst (read_version b1 p))
  /\ ends_past_header (fst (read_version b1 p))
  /\ past_header (snd (read_version b1 p)).
Proof.
  intros A P.
  assert (E : read_version b1 p = read_version b2 p).
  { unfold read_version, find_delim. now rewrite (bytes_agree b1 b2). }
  split; [exact E|].
  pose proof (find_delim_spec b1 p 0) as F. cbv zeta in F.
  unfold read_version.
  destruct (find_delim b1 p 0 <? 0) eqn:C; cbn [fst snd].
  - repeat split; try (intros a; discriminate). exact P.
  - apply Z.ltb_ge in C. repeat split.
    + exact P.
    + intros e. cbn [data_end]. destruct (data p) as [x|] eqn:D; [|discriminate].
      cbn. intros Q. injection Q as <-. specialize (P x D). lia.
    + apply skip_past_header; [lia|exact P].
Qed.

Lemma ctor_body_agree b1 b2 g p0 :
  agree_from_5 b1 b2 ->
  past_header (version g) -> ends_past_header (version g) ->
  ends_past_header (salt_2 g) -> past_header p0 ->
  ctor_body b1 g p0 = ctor_body b2 g p0.
Proof.
  intros A PV EV ES P0. unfold ctor_body.
  rewrite (last_byte_agree b1 b2 (version g) A EV).
  pose proof (deref_agree b1 b2 (version g) 0 A PV ltac:(lia)) as D0.
  assert (D0' : deref b1 (data (version g)) = deref b2 (data (version g))).
  { destruct (data (version g)); [|reflexivity]. cbn in D0.
    now rewrite Z.add_0_r in D0. }
  rewrite D0', (deref_agree b1 b2 (version g) 2 A PV ltac:(lia)).
  destruct ((length (version g) <? 6) || _); [reflexivity|].
  match goal with |- (if ?c then _ else _) p0 = _ => destruct c end;
    [reflexivity|].
  cbn [version cap salt_2 mariadb_ext_cap auth_plugin auth_plugin_len
         set_versions].
  unfold bind, skip_n, parse_n, pkt_length, ret.
  destruct ((length (version g) >? 9) || negb (Z.testbit (cap g) 0));
    cbv beta;
    [ rewrite (encoded_agree b1 b2 4 false (skip p0 6) A)
        by (apply skip_past_header; [lia|exact P0]);
      pose proof (encoded_cursor b2 4 false (skip p0 6)) as PA;
      destruct (encoded b2 4 false (skip p0 6)) as [mext pa];
      cbn [snd] in PA; subst pa;
      assert (PA : past_header (skip (skip p0 6) 4))
        by (repeat apply skip_past_header; (lia || exact P0));
      set (pa := skip (skip p0 6) 4) in *
    | assert (PA : past_header (skip p0 10))
        by (apply skip_past_header; [lia|exact P0]);
      set (pa := skip p0 10) in * ];
    clearbody pa;
    (match goal with |- (let '(_, _) := ?X in _) = _ =>
       assert (E2 : ends_past_header (fst X));
         [ destruct (negb _); cbn [fst];
           [apply parse_ends_past_header; [lia|exact PA]|exact ES]
         | destruct X as [s2 pb]; cbn [fst] in E2 ]
     end);
    now rewrite (last_byte_agree b1 b2 s2 A E2).
Qed.

Lemma whole_skip_5 buf :
  5 <= Z.of_nat (List.length buf) ->
  skip (whole buf) (1 + 1 + 1 + 1 + 1) =
    mk_datum (Some 5) (Some (Z.of_nat (List.length buf))).
Proof.
  intros H. unfold skip, whole, length. cbn [data data_end ptr_add].
  destruct (_ <? _) eqn:C; [apply Z.ltb_lt in C; lia|reflexivity].
Qed.

Lemma init_upto_version_whole buf :
  5 <= Z.of_nat (List.length buf) ->
  let p5 := mk_datum (Some 5) (Some (Z.of_nat (List.length buf))) in
  exists l pn pr,
    init_upto_version buf (whole buf) =
      (l, pn, pr, fst (read_version buf p5), snd (read_version buf p5)).
Proof.
  intros H. cbv zeta. unfold init_upto_version, bind, ret.
  do 5 read_value. rewrite whole_skip_5 by exact H.
  destruct (read_version buf _) as [v pv]. cbn [fst snd].
  now eexists _, _, _.
Qed.

Lemma member_init_fields buf pkt l pn pr v pv :
  init_upto_version buf pkt = (l, pn, pr, v, pv) ->
  member_init buf pkt =
    (mk_greet l pn pr v
       (fst (encoded buf 4 true pv))
       (fst (parse (skip pv 4) 9))
       (fst (encoded buf 2 true (skip pv (4 + 9))))
       (fst (encoded buf 1 false (skip pv (4 + 9 + 2))))
       (fst (encoded buf 2 true (skip pv (4 + 9 + 2 + 1))))
       (fst (encoded buf 2 true (skip pv (4 + 9 + 2 + 1 + 2))))
       (fst (encoded buf 1 false (skip pv (4 + 9 + 2 + 1 + 2 + 2))))
       None None None None null true 0 null,
     skip pv (4 + 9 + 2 + 1 + 2 + 2 + 1)).
Proof.
  intros H. unfold member_init, bind, parse_n, ret. rewrite H.
  do 7 read_value. reflexivity.
Qed.

(** The constructor, cut after the five header bytes. *)
Lemma greet_after_header buf :
  5 <= Z.of_nat (List.length buf) ->
  let p5 := mk_datum (Some 5) (Some (Z.of_nat (List.length buf))) in
  let v := fst (read_version buf p5) in
  let pv := snd (read_version buf p5) in
  exists l pn pr,
    greet buf =
      ctor_body buf
        (mk_greet l pn pr v
           (fst (encoded buf 4 true pv))
           (fst (parse (skip pv 4) 9))
           (fst (encoded buf 2 true (skip pv (4 + 9))))
           (fst (encoded buf 1 false (skip pv (4 + 9 + 2))))
           (fst (encoded buf 2 true (skip pv (4 + 9 + 2 + 1))))
           (fst (encoded buf 2 true (skip pv (4 + 9 + 2 + 1 + 2))))
           (fst (encoded buf 1 false (skip pv (4 + 9 + 2 + 1 + 2 + 2))))
           None None None None null true 0 null)
        (skip pv (4 + 9 + 2 + 1 + 2 + 2 + 1)).
Proof.
  intros H. cbv zeta.
  destruct (init_upto_version_whole buf H) as (l & pn & pr & E).
  exists l, pn, pr. unfold greet, mysql_server_greet_ctor, bind.
  now rewrite (member_init_fields _ _ _ _ _ _ _ E).
Qed.

(** The declared packet length, the sequence number and the protocol byte
    are read and never checked: two packets of one length that differ in
    their first five bytes only give records that differ in those three
    fields only, with the same verdict and the same cursor. *)
Theorem mysql_header_bytes_never_checked (buf1 buf2 : list Z) :
  List.length buf1 = List.length buf2 ->
  (5 <= List.length buf1)%nat ->
  skipn 5 buf1 = skipn 5 buf2 ->
  same_but_header (fst (greet buf1)) (fst (greet buf2))
  /\ is_not_empty (fst (greet buf1)) = is_not_empty (fst (greet buf2))
  /\ snd (greet buf1) = snd (greet buf2).
Proof.
  intros HL H5 HS.
  assert (A : agree_from_5 buf1 buf2).
  { intros a Ha. unfold load.
    replace (Z.to_nat a) with (5 + (Z.to_nat a - 5))%nat by lia.
    now rewrite <- !nth_skipn, HS. }
  destruct (greet_after_header buf1 ltac:(lia)) as (l1 & pn1 & pr1 & E1).
  destruct (greet_after_header buf2 ltac:(lia)) as (l2 & pn2 & pr2 & E2).
  rewrite E1, E2. clear E1 E2. rewrite <- HL.
  set (p5 := mk_datum (Some 5) (Some (Z.of_nat (List.length buf1)))).
  assert (P5 : past_header p5) by (intros a E; injection E as <-; lia).
  destruct (read_version_agree buf1 buf2 p5 A P5) as (ER & PV & EV & PP).
  rewrite <- ER.
  set (v := fst (read_version buf1 p5)) in *.
  set (pv := snd (read_version buf1 p5)) in *.
  rewrite <- !(encoded_agree buf1 buf2)
    by (exact A || exact PP || (apply skip_past_header; [lia|exact PP])).
  match goal with
  | |- context [ctor_body buf2 ?g ?p] =>
      rewrite <- (ctor_body_agree buf1 buf2 g p A)
  end.
  2,3: assumption.
  2: intros e; discriminate.
  2: apply skip_past_header; [lia|exact PP].
  match goal with
  | |- context [ctor_body buf1 (mk_greet l2 pn2 pr2 ?a ?b ?c ?d ?e ?f ?g ?h
                                  ?i ?j ?k ?l ?m ?n ?o ?q) ?p] =>
      set (g2 := mk_greet l2 pn2 pr2 a b c d e f g h i j k l m n o q);
      set (g1 := mk_greet l1 pn1 pr1 a b c d e f g h i j k l m n o q);
      set (p0 := p)
  end.
  destruct (ctor_body buf1 g1 p0) as [r1 q1] eqn:B1.
  destruct (ctor_body buf1 g2 p0) as [r2 q2] eqn:B2.
  unfold ctor_body, bind, ret, skip_n, parse_n, pkt_length in B1, B2.
  cbn [version cap salt_2 mariadb_ext_cap auth_plugin auth_plugin_len valid
         set_versions g1 g2] in B1, B2.
  repeat (cbv beta in B1, B2;
          first
            [ injection B1 as <- <-; injection B2 as <- <-;
              unfold same_but_header, is_not_empty; cbn;
              repeat split; reflexivity
            | match type of B1 with context [let '(_, _) := ?X in _] =>
                destruct X as [? ?] end
            | match type of B1 with context [if ?c then _ else _] =>
                destruct c end ]).
Qed.

Lemma mysql_header_bytes_never_checked_witness :
  same_but_header (fst (greet greeting_odd_header)) (fst (greet greeting_mysql57))
  /\ is_not_empty (fst (greet greeting_odd_header))
     = is_not_empty (fst (greet greeting_mysql57))
  /\ snd (greet greeting_odd_header) = snd (greet greeting_mysql57).
Proof.
  apply mysql_header_bytes_never_checked.
  - reflexivity.
  - vm_compute. lia.
  - reflexivity.
Defined.

End MysqlMoreFacts.

(** ** Tofsee: the transform and the record *)

Section TofseeMoreFacts.
Import Tofsee TofseeJson.

Lemma rotl_injective x y :
  is_byte x -> is_byte y -> rotl 5 x = rotl 5 y -> x = y.
Proof.
  intros Hx Hy E.
  assert (Hall : forallb (fun n => Z.of_nat n =? rotl 3 (rotl 5 (Z.of_nat n)))
                   (seq 0 256) = true) by (vm_compute; reflexivity).
  rewrite forallb_forall in Hall.
  assert (R : forall z, is_byte z -> z = rotl 3 (rotl 5 z)).
  { intros z Hz. specialize (Hall (Z.to_nat z)).
    rewrite Z2Nat.id in Hall by (unfold is_byte in Hz; lia).
    apply Z.eqb_eq, Hall, in_seq. unfold is_byte in Hz. lia. }
  rewrite (R x Hx), (R y Hy). now rewrite E.
Qed.

Lemma lxor_cancel_l a b c : Z.lxor a b = Z.lxor a c -> b = c.
Proof.
  intros E. apply (f_equal (Z.lxor a)) in E.
  now rewrite <- !Z.lxor_assoc, Z.lxor_nilpotent, !Z.lxor_0_l in E.
Qed.

(** Plaintext byte [i] as a function of ciphertext bytes [i - 1] and
    [i] *)
Lemma decrypt_nth_bytes (ct : list Z) (i : nat) :
  Forall is_byte ct -> (i < List.length ct)%nat ->
  nth i (decrypt ct (Some 0) (List.length ct)) 0 =
    Z.lxor (match i with
            | O => 198
            | S j => Z.lxor (nth j ct 0) 0xc6
            end) (rotl 5 (nth i ct 0)).
Proof.
  intros Hb Hi. unfold decrypt. rewrite decrypt_loop_nth by exact Hi.
  rewrite !load_nth.
  assert (H198 : is_byte 198) by (unfold is_byte; lia).
  destruct i as [|j].
  - apply to_u8_byte, lxor_byte; [exact H198|apply rotl_byte].
  - rewrite load_nth.
    pose proof (Forall_nth_byte ct j Hb) as Hcj.
    rewrite (to_u8_byte (Z.lxor (nth j ct 0) 198)) by now apply lxor_byte.
    apply to_u8_byte, lxor_byte; [now apply lxor_byte|apply rotl_byte].
Qed.

(** The de-obfuscation loses nothing: two byte strings of one length with
    the same plaintext are the same ciphertext. *)
Theorem tofsee_decrypt_injective (ct1 ct2 : list Z) :
  Forall is_byte ct1 -> Forall is_byte ct2 ->
  List.length ct1 = List.length ct2 ->
  decrypt ct1 (Some 0) (List.length ct1) = decrypt ct2 (Some 0) (List.length ct2) ->
  ct1 = ct2.
Proof.
  intros H1 H2 HL E.
  apply (nth_ext _ _ 0 0 HL).
  intros i. induction i as [i IH] using lt_wf_ind. intros Hi.
  pose proof (f_equal (fun l => nth i l 0) E) as Ei. cbv beta in Ei.
  rewrite !decrypt_nth_bytes in Ei by (assumption || lia).
  destruct i as [|j].
  - apply lxor_cancel_l in Ei.
    apply rotl_injective in Ei; auto using Forall_nth_byte.
  - rewrite (IH j) in Ei by lia.
    apply lxor_cancel_l in Ei.
    apply rotl_injective in Ei; auto using Forall_nth_byte.
Qed.

Lemma tofsee_decrypt_injective_witness :
  [0xff; 0xd4; 0x33] = [0xff; 0xd4; 0x33].
Proof.
  apply tofsee_decrypt_injective.
  - repeat constructor; unfold is_byte; lia.
  - repeat constructor; unfold is_byte; lia.
  - reflexivity.
  - reflexivity.
Defined.

Lemma slice_bytes (b : list Z) (lo hi : Z) :
  0 <= lo <= hi -> hi <= Z.of_nat (List.length b) ->
  bytes b (mk_datum (Some lo) (Some hi)) =
    firstn (Z.to_nat (hi - lo)) (skipn (Z.to_nat lo) b).
Proof.
  intros H1 H2. rewrite bytes_nth_seq by lia. apply map_nth_seq. lia.
Qed.

Lemma firstn_then (n k : nat) (l : list Z) :
  firstn n (skipn k l) ++ skipn (n + k) l = skipn k l.
Proof. rewrite <- skipn_skipn. apply firstn_skipn. Qed.

Lemma tile_200 (b : list Z) :
  List.length b = 200%nat ->
  firstn 128 b ++ firstn 16 (skipn 128 b) ++ firstn 4 (skipn 144 b)
    ++ firstn 4 (skipn 148 b) ++ firstn 48 (skipn 152 b) = b.
Proof.
  intros L.
  assert (E48 : firstn 48 (skipn 152 b) = skipn (4 + 148) b)
    by (apply firstn_all2; rewrite length_skipn; lia).
  rewrite E48, firstn_then.
  change (skipn 148 b) with (skipn (4 + 144) b). rewrite firstn_then.
  change (skipn 144 b) with (skipn (16 + 128) b). rewrite firstn_then.
  apply firstn_skipn.
Qed.

(** For a 200-byte input the five fields of the record tile the decrypted
    buffer: key, unknown_1, bot IP, server time and unknown_2 have 128, 16,
    4, 4 and 48 bytes, and their bytes in this order are the whole
    plaintext; the internal cursor is exhausted. *)
Theorem tofsee_fields_tile_plaintext (mem : list Z) (ct : datum) :
  Datum.length ct = 200 ->
  let m := fst (tofsee_ctor mem ct) in
  map Datum.length [key m; unknown_1 m; ipv4 m; srv_time m; unknown_2 m]
    = [128; 16; 4; 4; 48]
  /\ Datum.length (pt (tim_pt m)) = 0
  /\ plain_bytes m (key m) ++ plain_bytes m (unknown_1 m)
       ++ plain_bytes m (ipv4 m) ++ plain_bytes m (srv_time m)
       ++ plain_bytes m (unknown_2 m)
     = decrypt mem (data ct) 200.
Proof.
  intros H. cbv zeta. rewrite tofsee_ctor_200 by exact H.
  cbn [fst key unknown_1 ipv4 srv_time unknown_2 tim_pt pt map].
  split; [reflexivity|]. split; [reflexivity|].
  unfold plain_bytes. cbn [tim_pt buffer].
  set (b := decrypt mem (data ct) 200).
  assert (L : List.length b = 200%nat) by apply decrypt_loop_length.
  rewrite !slice_bytes by (rewrite ?L; lia).
  change (Z.to_nat (128 - 0)) with 128%nat. change (Z.to_nat 0) with 0%nat.
  change (Z.to_nat (144 - 128)) with 16%nat. change (Z.to_nat 128) with 128%nat.
  change (Z.to_nat (148 - 144)) with 4%nat. change (Z.to_nat 144) with 144%nat.
  change (Z.to_nat (152 - 148)) with 4%nat. change (Z.to_nat 148) with 148%nat.
  change (Z.to_nat (200 - 152)) with 48%nat. change (Z.to_nat 152) with 152%nat.
  change (skipn 0 b) with b.
  apply tile_200. exact L.
Qed.

Lemma tofsee_fields_tile_plaintext_witness :
  let m := fst (tofsee_of tim_ciphertext) in
  map Datum.length [key m; unknown_1 m; ipv4 m; srv_time m; unknown_2 m]
    = [128; 16; 4; 4; 48]
  /\ Datum.length (pt (tim_pt m)) = 0
  /\ plain_bytes m (key m) ++ plain_bytes m (unknown_1 m)
       ++ plain_bytes m (ipv4 m) ++ plain_bytes m (srv_time m)
       ++ plain_bytes m (unknown_2 m)
     = decrypt tim_ciphertext (Some 0) 200.
Proof.
  refine (tofsee_fields_tile_plaintext tim_ciphertext
            (mk_datum (Some 0) (Some 200)) _).
  reflexivity.
Defined.

Lemma is_not_empty_200 mem ct :
  Datum.length ct = 200 ->
  is_not_empty (fst (tofsee_ctor mem ct)) =
    (hamming_weight (unknown_1_plain mem ct) <? 16).
Proof.
  intros H. rewrite tofsee_ctor_200 by exact H.
  unfold is_not_empty, plain_bytes, weight_threshold, unknown_1_plain.
  cbn [fst unknown_2 unknown_1 tim_pt buffer is_not_null data negb].
  rewrite fold_left_weight, Z.add_0_l.
  rewrite slice_bytes by (unfold decrypt; rewrite ?decrypt_loop_length; lia).
  change (Z.to_nat 128) with 128%nat.
  change (Z.to_nat (144 - 128)) with 16%nat.
  now destruct (_ <? 16).
Qed.

Lemma is_not_empty_needs_200 mem ct :
  is_not_empty (fst (tofsee_ctor mem ct)) = true -> Datum.length ct = 200.
Proof.
  intros H. destruct (Z.eq_dec (Datum.length ct) 200) as [E|E]; [exact E|].
  rewrite tofsee_ctor_not_200 in H by exact E. discriminate.
Qed.

(** Whether a message is accepted depends on 17 bytes of it only: two
    buffers that agree on the ciphertext bytes 127 to 143 of the message
    get the same verdict, whatever the other 183 bytes are. *)
Theorem tofsee_verdict_reads_bytes_127_to_143
    (mem1 mem2 : list Z) (ct : datum) (a : Z) :
  data ct = Some a ->
  (forall i, 127 <= i <= 143 -> load mem1 (a + i) = load mem2 (a + i)) ->
  is_not_empty (fst (tofsee_ctor mem1 ct)) = is_not_empty (fst (tofsee_ctor mem2 ct)).
Proof.
  intros D W.
  destruct (Z.eq_dec (Datum.length ct) 200) as [E|E].
  2:{ now rewrite !tofsee_ctor_not_200 by exact E. }
  rewrite !is_not_empty_200 by exact E. f_equal. f_equal.
  unfold unknown_1_plain, decrypt. rewrite D.
  apply (nth_ext _ _ 0 0).
  { now rewrite !length_firstn, !length_skipn, !decrypt_loop_length. }
  intros j Hj.
  rewrite length_firstn, length_skipn, decrypt_loop_length in Hj.
  rewrite !nth_firstn.
  destruct (j <? 16)%nat eqn:J; [|reflexivity]. apply Nat.ltb_lt in J.
  rewrite !nth_skipn, !decrypt_loop_nth by lia.
  change (128 + j)%nat with (S (127 + j)).
  rewrite !W by lia. reflexivity.
Qed.

Lemma tofsee_verdict_reads_bytes_127_to_143_witness :
  is_not_empty (fst (tofsee_ctor tim_ciphertext (mk_datum (Some 0) (Some 200))))
  = is_not_empty (fst (tofsee_ctor (repeat 0 127 ++ skipn 127 tim_ciphertext)
                         (mk_datum (Some 0) (Some 200)))).
Proof.
  refine (tofsee_verdict_reads_bytes_127_to_143 _ _ _ 0 _ _).
  - reflexivity.
  - intros i Hi. unfold load. rewrite Z.add_0_l.
    rewrite app_nth2 by (rewrite repeat_length; lia).
    rewrite repeat_length, nth_skipn. f_equal. lia.
Defined.

(** [write_json] prints nothing for a rejected message.  For an accepted
    one the values it prints, key, unknown_1, bot IP, server time and
    unknown_2 in this order, are together the 200 decrypted bytes; the four
    bytes read for the bot IP are those of the [ipv4] field, inside the
    buffer. *)
Theorem tofsee_write_json_prints_plaintext (mem : list Z) (ct : datum) :
  let m := fst (tofsee_ctor mem ct) in
  (is_not_empty m = false -> write_json m = [])
  /\ (is_not_empty m = true ->
      List.concat (map payload (write_json m)) = decrypt mem (data ct) 200
      /\ ipv4_bytes m = plain_bytes m (ipv4 m)).
Proof.
  cbv zeta. split.
  - intros H. unfold write_json. now rewrite H.
  - intros H. pose proof (is_not_empty_needs_200 _ _ H) as L.
    unfold write_json. rewrite H. cbn [negb map payload List.concat].
    revert H. rewrite tofsee_ctor_200 by exact L. intros _.
    unfold plain_bytes, ipv4_bytes.
    cbn [fst key unknown_1 ipv4 srv_time unknown_2 tim_pt buffer data].
    set (b := decrypt mem (data ct) 200).
    assert (LB : List.length b = 200%nat) by apply decrypt_loop_length.
    assert (EI : map (fun i => deref b (ptr_add (Some 144) i)) [0; 1; 2; 3]
                 = bytes b (mk_datum (Some 144) (Some 148))) by reflexivity.
    rewrite EI. split; [|reflexivity].
    rewrite !slice_bytes by (rewrite ?LB; lia).
    rewrite !app_nil_r. cbn [app].
    change (Z.to_nat (128 - 0)) with 128%nat. change (Z.to_nat 0) with 0%nat.
    change (Z.to_nat (144 - 128)) with 16%nat. change (Z.to_nat 128) with 128%nat.
    change (Z.to_nat (148 - 144)) with 4%nat. change (Z.to_nat 144) with 144%nat.
    change (Z.to_nat (152 - 148)) with 4%nat. change (Z.to_nat 148) with 148%nat.
    change (Z.to_nat (200 - 152)) with 48%nat. change (Z.to_nat 152) with 152%nat.
    change (skipn 0 b) with b.
    apply tile_200. exact LB.
Qed.

Lemma tofsee_write_json_prints_plaintext_witness :
  let m := fst (tofsee_of tim_ciphertext) in
  List.concat (map payload (write_json m)) = decrypt tim_ciphertext (Some 0) 200
  /\ ipv4_bytes m = plain_bytes m (ipv4 m).
Proof.
  refine (proj2 (tofsee_write_json_prints_plaintext tim_ciphertext
                   (mk_datum (Some 0) (Some 200))) _).
  vm_compute. reflexivity.
Defined.

End TofseeMoreFacts.

(** ** HTTP header block: the completeness flag *)

Section HttpMoreFacts.
Import Http.

Section AnyHelpers.
Variables pm ps : helper.

Lemma parse_loop_flag (buf : list Z) (fuel : nat) : forall p c p' c',
  parse_loop pm ps fuel buf p c = Some (p', c') ->
  (c = true -> c' = true)
  /\ (c' = true ->
      c = true \/
      exists q, is_ok (fst (pm buf q crlf 2)) = true /\ p' = snd (pm buf q crlf 2))
  /\ (parser_get_data_length p <= 0 -> c' = c /\ p' = p).
Proof.
  induction fuel as [|fuel IH]; intros p c p' c' E; [discriminate E|].
  cbn [parse_loop] in E.
  destruct (parser_get_data_length p >? 0) eqn:L.
  2:{ injection E as <- <-. repeat split; auto. }
  assert (L' : ~ parser_get_data_length p <= 0) by (apply Z.gtb_lt in L; lia).
  destruct (pm buf p crlf 2) as [st p1] eqn:M.
  destruct (is_ok st) eqn:S.
  - injection E as <- <-. split; [reflexivity|]. split; [|intros; lia].
    intros _. right. exists p. rewrite M. cbn [fst snd]. now split.
  - destruct (ps buf p1 crlf 2) as [st' p2].
    destruct (negb (is_ok st')).
    + injection E as <- <-. split; [tauto|]. split; [now left|intros; lia].
    + destruct (IH _ _ _ _ E) as (K1 & K2 & _).
      split; [exact K1|]. split; [exact K2|intros; lia].
Qed.

End AnyHelpers.

(** Whatever the two helpers of [extractor.h] do, [parse] never clears
    [complete]: an object that has the flag set from an earlier block keeps
    it on any later input.  The flag is set only by a [parser_match] that
    returned [status_ok], and the cursor is then left as that call left it.
    On a cursor with nothing in it [parse] returns without calling a
    helper: the flag and the cursor stay as they were and the headers are
    empty. *)
Theorem http_complete_never_cleared
    (parser_match parser_skip_upto_delim : helper)
    (fuel : nat) (buf : list Z) (h : http_headers) (p : datum) :
  (parser_get_data_length p <= 0 ->
   parse parser_match parser_skip_upto_delim (S fuel) buf h p =
     Some (mk_http_headers (mk_datum (data p) (data p)) (complete h), p))
  /\ (forall h' p',
      parse parser_match parser_skip_upto_delim fuel buf h p = Some (h', p') ->
      (complete h = true -> complete h' = true)
      /\ (complete h' = true ->
          complete h = true \/
          exists q, is_ok (fst (parser_match buf q crlf 2)) = true
                    /\ p' = snd (parser_match buf q crlf 2))).
Proof.
  split.
  - intros L. unfold parse. cbn [parse_loop].
    destruct (parser_get_data_length p >? 0) eqn:G; [|reflexivity].
    apply Z.gtb_lt in G. lia.
  - unfold parse. intros h' p' E.
    destruct (parse_loop _ _ fuel buf p (complete h)) as [[q c]|] eqn:EL;
      [|discriminate E].
    injection E as <- <-. cbn [complete].
    destruct (parse_loop_flag _ _ _ _ _ _ _ _ EL) as (K1 & K2 & _).
    now split.
Qed.

Lemma http_complete_never_cleared_witness :
  parse parser_match parser_skip_upto_delim 2 cut_line
    (mk_http_headers null true) (mk_datum (Some 0) (Some 7))
  = Some (mk_http_headers (mk_datum (Some 0) None) true, null)
  /\ complete (mk_http_headers (mk_datum (Some 0) None) true) = true.
Proof.
  assert (E : parse parser_match parser_skip_upto_delim 2 cut_line
                (mk_http_headers null true) (mk_datum (Some 0) (Some 7))
              = Some (mk_http_headers (mk_datum (Some 0) None) true, null))
    by (vm_compute; reflexivity).
  split; [exact E|].
  apply (proj1 (proj2 (http_complete_never_cleared _ _ _ _ _ _) _ _ E)).
  reflexivity.
Defined.

(** With the helpers as the cursor contract describes them, the scan of
    the line "Host: x" CRLF stops on its CRLF and reports the block
    complete, though the line is followed by no empty line. *)
Example host_line_scan :
  parse parser_match parser_skip_upto_delim 3 host_line http_headers_ctor
    (mk_datum (Some 0) (Some 9))
  = Some (mk_http_headers (mk_datum (Some 0) (Some 7)) true,
          mk_datum (Some 7) (Some 9))
  /\ has_blank_line true host_line = false.
Proof. vm_compute. split; reflexivity. Qed.

End HttpMoreFacts.

(** ** Binding the shared library *)

Section LibmercApiFacts.
Import LibmercApi.

(** [bind] succeeds exactly when the library loads and the eleven symbols
    of the v1 check resolve ([analysis_context_get_server_name] is not
    among them); on failure the version is left as it was.  On success the
    version is 3 when the three v3 symbols resolve, whether or not the v2
    symbol does; otherwise 2 when the v2 symbol resolves; otherwise 1. *)
Theorem bind_status_and_version
    (dlopen_result : fnptr) (dlsym : string -> fnptr) (api : libmerc_api) :
  let '(status, api', _) := bind dlopen_result dlsym api in
  status = (if negb (is_null dlopen_result) && resolves dlsym v1_checked
            then 0 else -1)
  /\ libmerc_version api' =
       (if negb (status =? 0) then libmerc_version api
        else if resolves dlsym v3_symbols then 3
        else if resolves dlsym v2_symbols then 2
        else 1).
Proof.
  unfold bind.
  destruct (is_null dlopen_result); [split; reflexivity|].
  match goal with
  | |- context [if ?c then (-1, _, _) else _] =>
      assert (C1 : c = negb (resolves dlsym v1_checked))
  end.
  { unfold resolves, v1_checked. cbn [forallb].
    repeat match goal with
    | |- context [is_null (dlsym ?n)] =>
        let b := fresh "b" in
        set (b := is_null (dlsym n)); clearbody b
    end.
    btauto. }
  rewrite C1. clear C1.
  destruct (resolves dlsym v1_checked); cbn [negb andb]; [|split; reflexivity].
  unfold resolves, v2_symbols, v3_symbols. cbn [forallb].
  repeat match goal with
  | |- context [is_null (dlsym ?n)] => destruct (is_null (dlsym n))
  end; split; reflexivity.
Qed.

Lemma bind_status_and_version_example :
  let '(status, api', _) :=
    bind (Some 1) (exports (v1_checked ++ v3_symbols)) api_init in
  status = 0 /\ libmerc_version api' = 3 /\ register_printf_err api' = None.
Proof. vm_compute. repeat split; reflexivity. Qed.

(** After a successful [bind] the handle and the eleven pointers of the v1
    check are not null; with version 3 the three v3 pointers are not null,
    with version 2 the v2 pointer is not null.  [get_server_name] is
    whatever [dlsym] returned, null when the library lacks the symbol:
    no check covers it. *)
Theorem bind_success_pointers
    (dlopen_result : fnptr) (dlsym : string -> fnptr) (api : libmerc_api) :
  let '(status, api', _) := bind dlopen_result dlsym api in
  status = 0 ->
  forallb (fun p => negb (is_null p))
    [ dl_handle api'; init api'; finalize api';
      packet_processor_construct api'; packet_processor_destruct api';
      get_analysis_context api'; get_fingerprint_type api';
      get_fingerprint_status api'; get_fingerprint_string api';
      get_process_info api'; get_malware_info api'; write_stats_data api' ]
    = true
  /\ get_server_name api' = dlsym "analysis_context_get_server_name"%string
  /\ (libmerc_version api' = 3 ->
      forallb (fun p => negb (is_null p))
        [ get_analysis_context_linktype api'; get_user_agent api';
          get_alpns api' ] = true)
  /\ (libmerc_version api' = 2 -> is_null (register_printf_err api') = false).
Proof.
  unfold bind.
  destruct (is_null dlopen_result) eqn:D; [discriminate|].
  match goal with
  | |- context [if ?c then (-1, _, _) else _] => destruct c eqn:C1
  end; [discriminate|].
  repeat (apply orb_false_iff in C1; destruct C1 as [C1 ?]).
  destruct (is_null (dlsym "register_printf_err_callback"%string)) eqn:C2;
  match goal with
  | |- context [if ?c then (_, [note_v3_pointers]) else _] => destruct c eqn:C3
  end;
  intros _; cbn [libmerc_version dl_handle init finalize
                   packet_processor_construct packet_processor_destruct
                   get_analysis_context get_fingerprint_type
                   get_fingerprint_status get_fingerprint_string
                   get_process_info get_malware_info write_stats_data
                   get_server_name get_analysis_context_linktype
                   get_user_agent get_alpns register_printf_err forallb];
  repeat match goal with
  | H : is_null ?p = false |- context [is_null ?p] => rewrite H
  end;
  (split; [reflexivity|]); (split; [reflexivity|]);
  split; try discriminate; intros _; try reflexivity; try assumption.
  all: repeat (apply orb_false_iff in C3; destruct C3 as [C3 ?]).
  all: repeat match goal with
       | H : is_null ?p = false |- context [is_null ?p] => rewrite H
       end; reflexivity.
Qed.

Lemma bind_success_pointers_witness :
  let api' := snd (fst (bind (Some 1) (exports v1_checked) api_init)) in
  forallb (fun p => negb (is_null p))
    [ dl_handle api'; init api'; finalize api';
      packet_processor_construct api'; packet_processor_destruct api';
      get_analysis_context api'; get_fingerprint_type api';
      get_fingerprint_status api'; get_fingerprint_string api';
      get_process_info api'; get_malware_info api'; write_stats_data api' ]
    = true
  /\ get_server_name api' = None.
Proof.
  pose proof (bind_success_pointers (Some 1) (exports v1_checked) api_init) as H.
  destruct (bind (Some 1) (exports v1_checked) api_init) as [[status api'] log]
    eqn:E.
  cbn [fst snd].
  assert (S0 : status = 0)
    by (apply (f_equal (fun r => fst (fst r))) in E; vm_compute in E; congruence).
  destruct (H S0) as (H1 & H2 & _). split; [exact H1|].
  rewrite H2. reflexivity.
Defined.

End LibmercApiFacts.
